(** * minidoc: the content-dispatching document server (src/minidoc/dir.go)

    A shallow embedding of [dirHandler], [dirList], [showDir], [showFile],
    [isDoc], [parse], [renderDoc] and [renderHTML], with the collaborators
    the Go code calls (file system, document parser, template engine,
    logger, HTTP response helpers) made explicit:

    - the collaborators that return values are fields of a [World] record;
    - the collaborators that act on the outside (the logger, the response
      writer, the template executions that write into it) are recorded as
      an [event] trace carried by a small writer monad [M]. *)

From Stdlib Require Import String Ascii List Bool ZArith Lia.
From Stdlib Require Import Sorting.Sorted Sorting.Permutation.
Import ListNotations.
Open Scope string_scope.
Open Scope list_scope.

(** ** Go values *)

(** A Go [error] value, identified with the text of its [Error()] method. *)
Definition error := string.

(** A Go [(v, err)] result pair in which exactly one side is meaningful. *)
Inductive result (A : Type) : Type :=
| Ok (a : A)
| Err (err : error).
Arguments Ok {A} a.
Arguments Err {A} err.

(** [strings.HasPrefix(s, prefix)]. *)
Definition HasPrefix (s pre : string) : bool := String.prefix pre s.

(** ** Package path/filepath (Unix flavour: the separator is the slash) *)

Module filepath.

(** The backwards scan of [Ext]: [rpath] is the part of the path still
    to be visited, last byte first; [tail] is the part already passed. *)
Fixpoint ext_scan (rpath tail : list ascii) : list ascii :=
  match rpath with
  | [] => []
  | c :: r =>
      if Ascii.eqb c "/" then []
      else if Ascii.eqb c "." then c :: tail
      else ext_scan r (c :: tail)
  end.

(** [Ext(path)]: the suffix starting at the last dot of the last
    element of [path], empty when there is no dot. *)
Definition Ext (path : string) : string :=
  string_of_list_ascii (ext_scan (rev (list_ascii_of_string path)) []).

(** The elements of a path: the pieces between slashes. *)
Fixpoint split (path : string) : list string :=
  match path with
  | EmptyString => [EmptyString]
  | String c s =>
      if Ascii.eqb c "/" then EmptyString :: split s
      else match split s with
           | x :: r => String c x :: r
           | [] => [String c EmptyString]
           end
  end.

(** One round of the loop of [Clean] on the element [elem]; [out] is
    the stack of elements written so far, most recent first. *)
Definition clean_step (rooted : bool) (out : list string) (elem : string)
  : list string :=
  if (elem =? "")%string then out
  else if (elem =? ".")%string then out
  else if (elem =? "..")%string then
    match out with
    | top :: rest => if (top =? "..")%string then elem :: out else rest
    | [] => if rooted then out else [elem]
    end
  else elem :: out.

(** [Clean(path)]: the shortest path name equivalent to [path] by
    purely lexical processing. *)
Definition Clean (path : string) : string :=
  if (path =? "")%string then "."
  else
    let rooted := String.prefix "/" path in
    match fold_left (clean_step rooted) (split path) [] with
    | [] => if rooted then "/" else "."
    | out => (if rooted then "/" else "") ++ String.concat "/" (rev out)
    end.

(** [Join(elem...)]: leading empty elements are ignored, the rest is
    joined with slashes and cleaned; all empty gives the empty string. *)
Fixpoint Join (elem : list string) : string :=
  match elem with
  | [] => ""
  | e :: rest =>
      if (e =? "")%string then Join rest else Clean (String.concat "/" elem)
  end.

(** [ToSlash(path)]: the identity where the separator is the slash. *)
Definition ToSlash (path : string) : string := path.

End filepath.

(** ** Package net/url *)

Module url.

(** The fields of Go's [url.URL]. *)
Record URL := {
  Scheme : string;
  Opaque : string;
  User : option string;
  Host : string;
  Path : string;
  RawPath : string;
  ForceQuery : bool;
  RawQuery : string;
  Fragment : string
}.

Definition set_Host (u : URL) (h : string) : URL :=
  {| Scheme := Scheme u; Opaque := Opaque u; User := User u; Host := h;
     Path := Path u; RawPath := RawPath u; ForceQuery := ForceQuery u;
     RawQuery := RawQuery u; Fragment := Fragment u |}.

Definition set_Path (u : URL) (p : string) : URL :=
  {| Scheme := Scheme u; Opaque := Opaque u; User := User u; Host := Host u;
     Path := p; RawPath := RawPath u; ForceQuery := ForceQuery u;
     RawQuery := RawQuery u; Fragment := Fragment u |}.

End url.

(** The part of [http.Request] the handler reads. *)
Record Request := { URL : url.URL }.

(** ** Package os *)

Module os.

(** What the code asks of an [os.FileInfo]. *)
Record FileInfo := { Name : string; IsDir : bool }.

(** An open [*os.File], given by what its methods answer. *)
Record File := {
  Stat : result FileInfo;
  Readdir : result (list FileInfo);
  Read : result string
}.

End os.

(** ** Package present (the document parser) *)

Module present.

(** Modelled from the spec: the parse-mode flag of the document parser
    ("a parse-mode flag (full vs title-only)"); the package that
    declares [ParseMode] is not part of the sources at hand.  The
    callers write the full mode as the literal [0]. *)
Definition ParseMode := Z.

(** Modelled from the spec: the title-only parse mode, a flag distinct
    from the full mode [0]. *)
Definition TitlesOnly : ParseMode := 1%Z.

(** Modelled from the spec: a parsed Document "carries at minimum a
    Title (string) and enough structure to be handed to a template". *)
Record Doc := { Title : string; Sections : list string }.

End present.

(** ** The listing data (dir.go, lines 274-287) *)

Record dirEntry := { Name : string; Path : string; Title : string }.

Definition dirEntrySlice := list dirEntry.

Record dirListData := {
  DPath : string;
  Dirs : dirEntrySlice;
  Slides : dirEntrySlice;
  Articles : dirEntrySlice;
  Other : dirEntrySlice
}.

(** [func (s dirEntrySlice) Less(i, j int) bool]: Go compares strings
    byte by byte. *)
Definition Less (a b : dirEntry) : bool := (Name a <? Name b)%string.

(** [sort.Sort] on a [dirEntrySlice].  The library promises a slice
    sorted by [Less] and holding the same entries; straight insertion
    (which the library itself runs on short slices) stands for it. *)
Fixpoint insert (e : dirEntry) (s : dirEntrySlice) : dirEntrySlice :=
  match s with
  | [] => [e]
  | x :: r => if Less x e then x :: insert e r else e :: s
  end.

Fixpoint sort_Sort (s : dirEntrySlice) : dirEntrySlice :=
  match s with
  | [] => []
  | x :: r => insert x (sort_Sort r)
  end.

(** ** The outside world *)

(** What the handler can read from its environment: the [-root] flag,
    the file system, the parser and the compiled templates. *)
Record World := {
  f_root : string;
  os_Open : string -> result os.File;
  ioutil_ReadDir : string -> result (list os.FileInfo);
  present_Parse : os.File -> string -> present.ParseMode -> result present.Doc;
  (** [doc.Render(w, tmpl)]: the bytes written and the error returned;
      [tmpl] is the entry of [contentTemplate] that was looked up. *)
  Doc_Render : present.Doc -> option string -> string * option error;
  Template : Type;
  layoutTemplate : Template;
  Clone : Template -> result Template;
  ParseFiles : Template -> string -> result Template;
  (** [tmpl.Execute(w, nil)]. *)
  Execute : Template -> string * option error;
  (** [dirListTemplate.Execute(w, d)]. *)
  dirListTemplate_Execute : dirListData -> string * option error
}.

(** What the handler does to the outside, in the order it does it. *)
Inductive event :=
| log_Errorln (err : error)
| log_Info (msg : string)
| Doc_Rendered (doc : present.Doc) (tmpl : option string) (out : string)
| html_Executed (f : string) (out : string)
| dirList_Executed (d : dirListData) (out : string)
| http_Error (msg : string) (code : Z)
| http_Redirect (target : url.URL) (code : Z)
| FileServer_ServeHTTP (root : string) (r : Request).

(** The bytes an event writes into the [io.Writer] handed to the
    renderers. *)
Definition event_output (ev : event) : string :=
  match ev with
  | Doc_Rendered _ _ out => out
  | html_Executed _ out => out
  | dirList_Executed _ out => out
  | _ => ""
  end.

Definition written (evs : list event) : string :=
  fold_right (fun ev s => (event_output ev ++ s)%string) "" evs.

(** A computation that leaves a trace of events and returns a value. *)
Definition M (A : Type) : Type := (list event * A)%type.

Definition ret {A} (a : A) : M A := ([], a).

Definition bind {A B} (m : M A) (k : A -> M B) : M B :=
  let (evs, a) := m in
  let (evs', b) := k a in
  (evs ++ evs', b).

Definition emit (ev : event) : M unit := ([ev], tt).

Notation "x <- m ;; k" := (bind m (fun x => k))
  (at level 61, m at next level, right associativity).
Notation "m ;;; k" := (bind m (fun _ => k))
  (at level 61, right associativity).

(** ** dir.go *)

(** The keys and values [initTemplates] stores into [contentTemplate]
    (lines 94-107); a value names the template file parsed for the key. *)
Definition contentTemplate : list (string * string) :=
  [(".slide", "slides.tmpl"); (".article", "article.tmpl")].

Fixpoint lookup (k : string) (m : list (string * string)) : option string :=
  match m with
  | [] => None
  | (k', v) :: r => if (k' =? k)%string then Some v else lookup k r
  end.

(** [isDoc] (lines 71-74). *)
Definition isDoc (path : string) : bool :=
  match lookup (filepath.Ext path) contentTemplate with
  | Some _ => true
  | None => false
  end.

(** [parse] (lines 164-171).  The parser is called with the literal [0],
    whatever [mode] is. *)
Definition parse (W : World) (name : string) (mode : present.ParseMode)
  : result present.Doc :=
  match os_Open W (filepath.Join [f_root W; name]) with
  | Err err => Err err
  | Ok f => present_Parse W f name 0%Z
  end.

(** [renderDoc] (lines 131-143). *)
Definition renderDoc (W : World) (docFile : string) : M (option error) :=
  match parse W docFile 0%Z with
  | Err err => ret (Some err)
  | Ok doc =>
      let tmpl := lookup (filepath.Ext docFile) contentTemplate in
      let (out, err) := Doc_Render W doc tmpl in
      emit (Doc_Rendered doc tmpl out);;;
      ret err
  end.

(** [renderHTML] (lines 147-162). *)
Definition renderHTML (W : World) (name : string) : M (option error) :=
  emit (log_Info ("renderHTML: " ++ name));;;
  let f := filepath.Join [f_root W; name] in
  match Clone W (layoutTemplate W) with
  | Err err => ret (Some err)
  | Ok tmpl =>
      match ParseFiles W tmpl f with
      | Err err => ret (Some err)
      | Ok tmpl =>
          let (out, err) := Execute W tmpl in
          emit (html_Executed f out);;;
          ret err
      end
  end.

(** [showFile] (lines 242-251). *)
Definition showFile (n : string) : bool :=
  let ext := filepath.Ext n in
  if (ext =? ".pdf")%string then true
  else if (ext =? ".html")%string then true
  else if (ext =? ".go")%string then true
  else isDoc n.

(** [n[0] == '.' || n[0] == '_'] under [len(n) > 0]. *)
Definition hidden_name (n : string) : bool :=
  match n with
  | EmptyString => false
  | String c _ => Ascii.eqb c "." || Ascii.eqb c "_"
  end.

(** [showDir] (lines 254-272). *)
Definition showDir (W : World) (e : dirEntry) : bool :=
  let n := Name e in
  if hidden_name n || (n =? "present")%string then false
  else
    match ioutil_ReadDir W (filepath.Join [f_root W; Path e]) with
    | Err _ => false
    | Ok files => existsb (fun f => showFile (os.Name f)) files
    end.

(** [d.Dirs = append(d.Dirs, e)] and its three siblings. *)
Definition append_Dirs (d : dirListData) (e : dirEntry) : dirListData :=
  {| DPath := DPath d; Dirs := Dirs d ++ [e]; Slides := Slides d;
     Articles := Articles d; Other := Other d |}.

Definition append_Slides (d : dirListData) (e : dirEntry) : dirListData :=
  {| DPath := DPath d; Dirs := Dirs d; Slides := Slides d ++ [e];
     Articles := Articles d; Other := Other d |}.

Definition append_Articles (d : dirListData) (e : dirEntry) : dirListData :=
  {| DPath := DPath d; Dirs := Dirs d; Slides := Slides d;
     Articles := Articles d ++ [e]; Other := Other d |}.

Definition append_Other (d : dirListData) (e : dirEntry) : dirListData :=
  {| DPath := DPath d; Dirs := Dirs d; Slides := Slides d;
     Articles := Articles d; Other := Other d ++ [e] |}.

(** How the [for] loop of [dirList] ends: by the early return on an
    [index.html] child, or by running out of children. *)
Inductive scanned :=
| Index (e : dirEntry)
| Listed (d : dirListData).

(** The entry built at the top of each round (lines 201-204). *)
Definition entry (name : string) (fi : os.FileInfo) : dirEntry :=
  {| Name := os.Name fi;
     Path := filepath.ToSlash (filepath.Join [name; os.Name fi]);
     Title := "" |}.

(** The title extraction of lines 216-220. *)
Definition titled (W : World) (e : dirEntry) : M dirEntry :=
  match parse W (Path e) present.TitlesOnly with
  | Err err => emit (log_Errorln err);;; ret e
  | Ok p => ret {| Name := Name e; Path := Path e; Title := present.Title p |}
  end.

(** The [for] loop of [dirList] (lines 196-230). *)
Fixpoint scan (W : World) (name : string) (fis : list os.FileInfo)
  (d : dirListData) : M scanned :=
  match fis with
  | [] => ret (Listed d)
  | fi :: rest =>
      if (name =? ".")%string && (os.Name fi =? "pkg")%string
      then scan W name rest d
      else
        let e := entry name fi in
        if (os.Name fi =? "index.html")%string then ret (Index e)
        else if os.IsDir fi && showDir W e
        then scan W name rest (append_Dirs d e)
        else if isDoc (Name e) then
          e <- titled W e;;
          let ext := filepath.Ext (Path e) in
          if (ext =? ".article")%string
          then scan W name rest (append_Articles d e)
          else if (ext =? ".slide")%string
          then scan W name rest (append_Slides d e)
          else scan W name rest d
        else if showFile (Name e)
        then scan W name rest (append_Other d e)
        else scan W name rest d
  end.

(** Lines 231-237: the display path of the root and the four sorts. *)
Definition finish (d : dirListData) : dirListData :=
  {| DPath := if (DPath d =? ".")%string then "" else DPath d;
     Dirs := sort_Sort (Dirs d);
     Slides := sort_Sort (Slides d);
     Articles := sort_Sort (Articles d);
     Other := sort_Sort (Other d) |}.

(** [dirList] (lines 178-239): the pair returned is [(isDir, err)]. *)
Definition dirList (W : World) (name : string) : M (bool * option error) :=
  match os_Open W (filepath.Join [f_root W; name]) with
  | Err err => ret (false, Some err)
  | Ok f =>
      match os.Stat f with
      | Err err => ret (false, Some err)
      | Ok fi =>
          if negb (os.IsDir fi) then ret (false, None)
          else
            match os.Readdir f with
            | Err err => ret (false, Some err)
            | Ok fis =>
                s <- scan W name fis
                       {| DPath := name; Dirs := []; Slides := [];
                          Articles := []; Other := [] |};;
                match s with
                | Index e =>
                    err <- renderHTML W (Path e);;
                    ret (true, err)
                | Listed d =>
                    let d := finish d in
                    let (out, err) := dirListTemplate_Execute W d in
                    emit (dirList_Executed d out);;;
                    ret (true, err)
                end
            end
      end
  end.

(** The error branch shared by the three renderers in [dirHandler]:
    [log.Errorln(err); http.Error(w, err.Error(), 500)]. *)
Definition fail500 (err : error) : M unit :=
  emit (log_Errorln err);;;
  emit (http_Error err 500).

(** [dirHandler] (lines 26-69).  The redirect is recorded with the URL
    value whose [String()] the code hands to [http.Redirect]. *)
Definition dirHandler (W : World) (r : Request) : M unit :=
  if HasPrefix (url.Path (URL r)) "/minimega.git" then
    let u := URL r in
    let u := url.set_Host u "github.com" in
    let u := url.set_Path u ("/sandia-minimega" ++ url.Path u) in
    emit (http_Redirect u 301)
  else if (url.Path (URL r) =? "/favicon.ico")%string then
    emit (http_Error "not found" 404)
  else
    let name := filepath.Join ["."; url.Path (URL r)] in
    if isDoc name then
      err <- renderDoc W name;;
      match err with
      | Some err => fail500 err
      | None => ret tt
      end
    else
      res <- dirList W name;;
      match res with
      | (_, Some err) => fail500 err
      | (true, None) => ret tt
      | (false, None) =>
          if (filepath.Ext name =? ".html")%string then
            err <- renderHTML W name;;
            match err with
            | Some err => fail500 err
            | None => ret tt
            end
          else emit (FileServer_ServeHTTP (f_root W) r)
      end.

(** ** A file system on which the code can be run *)

Module demo.

Inductive node :=
| regular (content : string)
| directory (children : list os.FileInfo).

(** A file system: cleaned absolute paths and what sits there. *)
Definition FS := list (string * node).

Fixpoint find (p : string) (fs : FS) : option node :=
  match fs with
  | [] => None
  | (q, n) :: r => if (q =? p)%string then Some n else find p r
  end.

Definition base (p : string) : string :=
  last (filepath.split p) "".

Definition Open (fs : FS) (p : string) : result os.File :=
  match find p fs with
  | None => Err ("open " ++ p ++ ": no such file or directory")%string
  | Some (regular c) =>
      Ok {| os.Stat := Ok {| os.Name := base p; os.IsDir := false |};
            os.Readdir := Err ("readdirent " ++ p ++ ": not a directory")%string;
            os.Read := Ok c |}
  | Some (directory l) =>
      Ok {| os.Stat := Ok {| os.Name := base p; os.IsDir := true |};
            os.Readdir := Ok l;
            os.Read := Err ("read " ++ p ++ ": is a directory")%string |}
  end.

Definition ReadDir (fs : FS) (p : string) : result (list os.FileInfo) :=
  match find p fs with
  | None => Err ("open " ++ p ++ ": no such file or directory")%string
  | Some (regular _) => Err ("readdirent " ++ p ++ ": not a directory")%string
  | Some (directory l) => Ok l
  end.

(** A stand-in parser: the document's title is its whole first line;
    the body is kept as one section unless only titles are asked for;
    an empty source is malformed. *)
Fixpoint first_line (s : string) : string * string :=
  match s with
  | EmptyString => ("", "")
  | String c r =>
      if Ascii.eqb c "010" then ("", r)
      else let (l, rest) := first_line r in (String c l, rest)
  end.

Definition Parse (f : os.File) (name : string) (mode : present.ParseMode)
  : result present.Doc :=
  match os.Read f with
  | Err err => Err err
  | Ok "" => Err (name ++ ": unexpected EOF")%string
  | Ok src =>
      let (t, body) := first_line src in
      Ok {| present.Title := t;
            present.Sections := if (mode =? present.TitlesOnly)%Z then []
                                else [body] |}
  end.

(** Templates are the list of files parsed into them; executing one
    writes their names. *)
Definition world (root : string) (fs : FS) : World :=
  {| f_root := root;
     os_Open := Open fs;
     ioutil_ReadDir := ReadDir fs;
     present_Parse := Parse;
     Doc_Render := fun doc tmpl => (("<doc>" ++ present.Title doc)%string, None);
     Template := list string;
     layoutTemplate := ["layout.tmpl"];
     Clone := fun t => Ok t;
     ParseFiles := fun t f =>
       match find f fs with
       | Some (regular _) => Ok (t ++ [f])
       | _ => Err ("open " ++ f ++ ": no such file or directory")%string
       end;
     Execute := fun t => (("<html>" ++ String.concat "," t)%string, None);
     dirListTemplate_Execute := fun d => (("<dir>" ++ DPath d)%string, None) |}.

Definition file (n : string) : os.FileInfo :=
  {| os.Name := n; os.IsDir := false |}.
Definition dir (n : string) : os.FileInfo :=
  {| os.Name := n; os.IsDir := true |}.

(** The request [GET path?query], as the server parses it. *)
Definition get (path query : string) : Request :=
  {| URL := {| url.Scheme := ""; url.Opaque := ""; url.User := None;
               url.Host := ""; url.Path := path; url.RawPath := "";
               url.ForceQuery := false; url.RawQuery := query;
               url.Fragment := "" |} |}.

End demo.

(** ** The loop of [dirList], one child at a time

    [place] is one round of the loop for a child that is not the index
    page: the events of the round and the category the child lands in,
    if any.  [scan_listed] below shows that the loop is the fold of
    [place] over the children. *)

Inductive category := inDirs | inSlides | inArticles | inOther.

Definition category_eqb (a b : category) : bool :=
  match a, b with
  | inDirs, inDirs | inSlides, inSlides
  | inArticles, inArticles | inOther, inOther => true
  | _, _ => false
  end.

Definition place (W : World) (name : string) (fi : os.FileInfo)
  : M (option (category * dirEntry)) :=
  if (name =? ".")%string && (os.Name fi =? "pkg")%string then ret None
  else
    let e := entry name fi in
    if os.IsDir fi && showDir W e then ret (Some (inDirs, e))
    else if isDoc (Name e) then
      e <- titled W e;;
      let ext := filepath.Ext (Path e) in
      if (ext =? ".article")%string then ret (Some (inArticles, e))
      else if (ext =? ".slide")%string then ret (Some (inSlides, e))
      else ret None
    else if showFile (Name e) then ret (Some (inOther, e))
    else ret None.

Definition add (d : dirListData) (p : option (category * dirEntry))
  : dirListData :=
  match p with
  | None => d
  | Some (inDirs, e) => append_Dirs d e
  | Some (inSlides, e) => append_Slides d e
  | Some (inArticles, e) => append_Articles d e
  | Some (inOther, e) => append_Other d e
  end.

(** The events of the rounds and where each child was put. *)
Definition logs (W : World) (name : string) (fis : list os.FileInfo)
  : list event :=
  flat_map (fun fi => fst (place W name fi)) fis.

Definition placed (W : World) (name : string) (fis : list os.FileInfo)
  : list (option (category * dirEntry)) :=
  map (fun fi => snd (place W name fi)) fis.

(** The entries put into category [c]. *)
Definition select (c : category) (ps : list (option (category * dirEntry)))
  : dirEntrySlice :=
  flat_map (fun p => match p with
                     | Some (c', e) => if category_eqb c c' then [e] else []
                     | None => []
                     end) ps.

Definition empty_listing (name : string) : dirListData :=
  {| DPath := name; Dirs := []; Slides := []; Articles := []; Other := [] |}.

(** The listing data [dirList] hands to the listing template when no
    child is the index page. *)
Definition listing (W : World) (name : string) (fis : list os.FileInfo)
  : dirListData :=
  finish (fold_left add (placed W name fis) (empty_listing name)).

Definition no_index (fis : list os.FileInfo) : Prop :=
  forall fi, In fi fis -> os.Name fi <> "index.html".

(** Ascending by [Name], as [Less] orders entries. *)
Definition by_Name (a b : dirEntry) : Prop :=
  (Name a <=? Name b)%string = true.

(** The only events of a round are the logged title-parse errors. *)
Definition is_logged_error (ev : event) : Prop :=
  exists err, ev = log_Errorln err.

(** ** Paths, element by element *)

(** The last element of a path, [Base] without the special cases. *)
Definition last_elem (p : string) : string := last (filepath.split p) "".

Definition no_slash (s : string) : bool :=
  forallb (fun c => negb (Ascii.eqb c "/")) (list_ascii_of_string s).

(** ** What the name of a child decides *)

Definition skipped (name : string) (fi : os.FileInfo) : bool :=
  (name =? ".")%string && (os.Name fi =? "pkg")%string.

(** The category the name of a child selects once the child has not
    been taken as a directory. *)
Definition kind_of_name (n : string) : option category :=
  if isDoc n then
    if (filepath.Ext n =? ".article")%string then Some inArticles
    else Some inSlides
  else if showFile n then Some inOther
  else None.

(** ** A serving root to run the code on *)

Definition fs1 : demo.FS :=
  [ ("/srv", demo.directory
       [demo.dir "talks"; demo.dir "more"; demo.dir "pkg"; demo.dir "docs";
        demo.dir "site"; demo.file "favicon.ico"]);
    ("/srv/talks", demo.directory
       [demo.file "b.slide"; demo.file "a.article"; demo.file "z.pdf";
        demo.dir ".git"]);
    ("/srv/talks/b.slide", demo.regular ("Bee" ++ String "010" "body"));
    ("/srv/talks/a.article", demo.regular "");
    ("/srv/talks/z.pdf", demo.regular "%PDF");
    ("/srv/talks/.git", demo.directory [demo.file "config.go"]);
    ("/srv/more", demo.directory
       [demo.file "c.slide"; demo.dir ".git"; demo.file "z.pdf";
        demo.file "b.slide"; demo.file "a.article"]);
    ("/srv/more/c.slide", demo.regular "Sea");
    ("/srv/more/b.slide", demo.regular "Bee");
    ("/srv/more/a.article", demo.regular "Ay");
    ("/srv/more/z.pdf", demo.regular "%PDF");
    ("/srv/more/.git", demo.directory []);
    ("/srv/pkg", demo.directory [demo.file "a.go"]);
    ("/srv/pkg/a.go", demo.regular "package a");
    ("/srv/docs", demo.directory
       [demo.dir "_old.pdf"; demo.dir "locked"; demo.file "notes.go";
        demo.dir "only_txt"]);
    ("/srv/docs/_old.pdf", demo.directory [demo.file "x.pdf"]);
    ("/srv/docs/_old.pdf/x.pdf", demo.regular "%PDF");
    ("/srv/docs/notes.go", demo.regular "package notes");
    ("/srv/docs/only_txt", demo.directory [demo.file "readme.txt"]);
    ("/srv/docs/only_txt/readme.txt", demo.regular "read me");
    ("/srv/site", demo.directory
       [demo.file "a.slide"; demo.file "index.html"; demo.file "z.pdf"]);
    ("/srv/site/a.slide", demo.regular "");
    ("/srv/site/index.html", demo.regular "<h1>site</h1>");
    ("/srv/site/z.pdf", demo.regular "%PDF");
    ("/srv/favicon.ico", demo.regular "ico") ].

Definition W1 : World := demo.world "/srv" fs1.

(** ** The claims as the specification words them, where the code differs *)




(** The name [dirHandler] resolves the request path to. *)
Definition resolved (r : Request) : string :=
  filepath.Join ["."; url.Path (URL r)].

Definition resolves_to_dir (W : World) (name : string) : Prop :=
  exists f fi, os_Open W (filepath.Join [f_root W; name]) = Ok f /\
               os.Stat f = Ok fi /\ os.IsDir fi = true.

Definition static_fallthrough (W : World) (r : Request) : Prop :=
  dirHandler W r = ([FileServer_ServeHTTP (f_root W) r], tt).

(** C3 as worded: no document kind, no directory, no [.html] means the
    static responder, whether the file is there or not. *)
Definition falls_through_whenever (W : World) (r : Request) : Prop :=
  isDoc (resolved r) = false -> ~ resolves_to_dir W (resolved r) ->
  filepath.Ext (resolved r) <> ".html" ->
  static_fallthrough W r.

(** C7 as worded, for one child directory of a listing with data [d]. *)
Definition in_Dirs_iff_showDir (W : World) (name : string)
  (d : dirListData) (child : os.FileInfo) : Prop :=
  In (entry name child) (Dirs d) <-> showDir W (entry name child) = true.

(** No enumerated child of the directory passes [showFile]; a directory
    that cannot be enumerated has no enumerated child. *)
Definition no_visible_child (W : World) (e : dirEntry) : Prop :=
  forall files,
    ioutil_ReadDir W (filepath.Join [f_root W; Path e]) = Ok files ->
    forall x, In x files -> showFile (os.Name x) = false.

(** ** Categories by name *)

Definition category_of (c : category) (d : dirListData) : dirEntrySlice :=
  match c with
  | inDirs => Dirs d
  | inSlides => Slides d
  | inArticles => Articles d
  | inOther => Other d
  end.

(** A child the directory branch cannot take and the root does not skip:
    a plain file, or a directory hidden by its name. *)
Definition filed (fi : os.FileInfo) : bool :=
  negb (os.Name fi =? "pkg")%string &&
  (negb (os.IsDir fi) || hidden_name (os.Name fi)).

(** The names the children contribute to category [c] by name alone. *)
Definition names_in (c : category) (fis : list os.FileInfo) : list string :=
  flat_map (fun fi => match kind_of_name (os.Name fi) with
                      | Some c' => if category_eqb c c' then [os.Name fi] else []
                      | None => []
                      end) fis.

Definition names_ascending (a b : string) : Prop := (a <=? b)%string = true.

(** The two directories of the claim, in some order of enumeration. *)
Definition four_children : list os.FileInfo :=
  [demo.file "b.slide"; demo.file "a.article"; demo.file "z.pdf";
   demo.dir ".git"].

Definition five_children : list os.FileInfo :=
  four_children ++ [demo.file "c.slide"].

(** [dirList] wrote a listing with the data [d] and nothing after it. *)
Definition lists (W : World) (name : string) (d : dirListData) : Prop :=
  exists evs out err,
    dirList W name = (evs ++ [dirList_Executed d out], (true, err)).

(** ** Further notions used to describe the handler *)

(** The events that answer the request: a status line is sent, or the
    request is handed over to the static responder. *)
Definition is_response (ev : event) : bool :=
  match ev with
  | http_Error _ _ | http_Redirect _ _ | FileServer_ServeHTTP _ _ => true
  | _ => false
  end.

(** A trace in which nothing answers the request. *)
Definition quiet (evs : list event) : Prop :=
  forall ev, In ev evs -> is_response ev = false.

(** The entries of all categories, in the order the children gave them. *)
Definition entries (ps : list (option (category * dirEntry))) : dirEntrySlice :=
  flat_map (fun p => match p with
                     | Some (_, e) => [e]
                     | None => []
                     end) ps.

(** The extensions [showFile] lets through. *)
Definition shown_extensions : list string :=
  [".pdf"; ".html"; ".go"; ".slide"; ".article"].

(** The three I/O failures of the probe of [dirList] (lines 179-194). *)
Definition probe_fails (W : World) (name : string) (err : error) : Prop :=
  os_Open W (filepath.Join [f_root W; name]) = Err err \/
  exists f,
    os_Open W (filepath.Join [f_root W; name]) = Ok f /\
    (os.Stat f = Err err \/
     exists fi, os.Stat f = Ok fi /\ os.IsDir fi = true /\
                os.Readdir f = Err err).



(** ** The template registry (dir.go, lines 76-127) *)

(** The calls [initTemplates] makes into the template packages.  A
    template is a mutable object in Go; a call that changes its receiver
    is given here by the receiver after the call. *)
Record TemplateLib := {
  Tmpl : Type;
  (** [present.Template()]. *)
  present_Template : Tmpl;
  (** [tmpl.Funcs(template.FuncMap{name: ...})]. *)
  tmpl_Funcs : Tmpl -> string -> Tmpl;
  (** [tmpl.ParseFiles(files...)]. *)
  tmpl_ParseFiles : Tmpl -> list string -> result Tmpl;
  (** [template.ParseFiles(files...)]. *)
  template_ParseFiles : list string -> result Tmpl;
  (** [tmpl.Clone()]. *)
  tmpl_Clone : Tmpl -> result Tmpl;
  (** [t.AddParseTree(name, other.Tree)]. *)
  tmpl_AddParseTree : Tmpl -> string -> Tmpl -> result Tmpl
}.

(** The three package-level variables; [None] is the nil pointer. *)
Record Registry (L : TemplateLib) := {
  reg_dirListTemplate : option (Tmpl L);
  reg_contentTemplate : list (string * Tmpl L);
  reg_layoutTemplate : option (Tmpl L)
}.
Arguments reg_dirListTemplate {L} _.
Arguments reg_contentTemplate {L} _.
Arguments reg_layoutTemplate {L} _.

(** [m[k] = v] on a map kept as an association list. *)
Fixpoint map_set {V} (k : string) (v : V) (m : list (string * V))
  : list (string * V) :=
  match m with
  | [] => [(k, v)]
  | (k', v') :: r =>
      if (k' =? k)%string then (k, v) :: r else (k', v') :: map_set k v r
  end.

(** [_, ok := m[k]]. *)
Fixpoint map_has {V} (k : string) (m : list (string * V)) : bool :=
  match m with
  | [] => false
  | (k', _) :: r => (k' =? k)%string || map_has k r
  end.

(** What a Go call that returns a pointer and an error leaves in a
    variable assigned from it: nil beside an error. *)
Definition assigned {A} (r : result A) : option A :=
  match r with
  | Ok a => Some a
  | Err _ => None
  end.

(** The [for ... range] loop of [initTemplates] (lines 94-107) over the
    entries of the map literal in the order [order] the runtime yields
    them; [ct] is [contentTemplate]. *)
Fixpoint content_loop (L : TemplateLib) (base actionTmpl : string)
  (order : list (string * string)) (ct : list (string * Tmpl L))
  : list (string * Tmpl L) * option error :=
  match order with
  | [] => (ct, None)
  | (ext, contentTmpl) :: rest =>
      let contentTmpl := filepath.Join [base; contentTmpl] in
      let tmpl := present_Template L in
      let tmpl := tmpl_Funcs L tmpl "playable" in
      match tmpl_ParseFiles L tmpl [actionTmpl; contentTmpl] with
      | Err err => (ct, Some err)
      | Ok tmpl => content_loop L base actionTmpl rest (map_set ext tmpl ct)
      end
  end.

(** [initTemplates] (lines 88-127): the variables after the call and the
    error returned.  [order] is the order in which the runtime ranges
    over the map literal, whose entries are those of [contentTemplate]
    above. *)
Definition initTemplates (L : TemplateLib) (base : string)
  (order : list (string * string)) (g : Registry L)
  : Registry L * option error :=
  let actionTmpl := filepath.Join [base; "action.tmpl"] in
  let (ct, err) := content_loop L base actionTmpl order [] in
  let g := {| reg_dirListTemplate := reg_dirListTemplate g;
              reg_contentTemplate := ct;
              reg_layoutTemplate := reg_layoutTemplate g |} in
  match err with
  | Some err => (g, Some err)
  | None =>
      let layout := template_ParseFiles L [filepath.Join [base; "layout.tmpl"]] in
      let g := {| reg_dirListTemplate := reg_dirListTemplate g;
                  reg_contentTemplate := ct;
                  reg_layoutTemplate := assigned layout |} in
      match layout with
      | Err err => (g, Some err)
      | Ok layoutTemplate =>
          let dir := template_ParseFiles L [filepath.Join [base; "dir.tmpl"]] in
          let g := {| reg_dirListTemplate := assigned dir;
                      reg_contentTemplate := ct;
                      reg_layoutTemplate := Some layoutTemplate |} in
          match dir with
          | Err err => (g, Some err)
          | Ok dirListTemplate =>
              match tmpl_Clone L layoutTemplate with
              | Err err => (g, Some err)
              | Ok tmpl =>
                  let added :=
                    tmpl_AddParseTree L dirListTemplate "layout.tmpl" tmpl in
                  ({| reg_dirListTemplate := assigned added;
                      reg_contentTemplate := ct;
                      reg_layoutTemplate := Some layoutTemplate |},
                   match added with
                   | Err err => Some err
                   | Ok _ => None
                   end)
              end
          end
      end
  end.

(** A template library in which every call succeeds; a template is the
    list of the files parsed into it. *)
Definition demo_templates : TemplateLib :=
  {| Tmpl := list string;
     present_Template := [];
     tmpl_Funcs := fun t _ => t;
     tmpl_ParseFiles := fun t files => Ok (t ++ files);
     template_ParseFiles := fun files => Ok files;
     tmpl_Clone := fun t => Ok t;
     tmpl_AddParseTree := fun t name other => Ok (t ++ other) |}.

Definition unset (L : TemplateLib) : Registry L :=
  {| reg_dirListTemplate := None; reg_contentTemplate := [];
     reg_layoutTemplate := None |}.

(** ** The methods of [dirEntrySlice] (dir.go, lines 285-287) *)

(** [s[i]]: [None] stands for the index-out-of-range panic. *)
Definition index (s : dirEntrySlice) (i : Z) : option dirEntry :=
  if (i <? 0)%Z then None else nth_error s (Z.to_nat i).

(** [s[i] = v] for an index in range. *)
Fixpoint store (s : dirEntrySlice) (n : nat) (v : dirEntry) : dirEntrySlice :=
  match s, n with
  | [], _ => []
  | _ :: r, O => v :: r
  | x :: r, S n => x :: store r n v
  end.

(** [func (s dirEntrySlice) Len() int]. *)
Definition Len (s : dirEntrySlice) : Z := Z.of_nat (length s).

(** [func (s dirEntrySlice) Swap(i, j int)]: both elements are read,
    then both are written. *)
Definition Swap (s : dirEntrySlice) (i j : Z) : option dirEntrySlice :=
  match index s j, index s i with
  | Some sj, Some si => Some (store (store s (Z.to_nat i) sj) (Z.to_nat j) si)
  | _, _ => None
  end.

(** * Proofs *)

(** ** Monad facts *)

Lemma bind_ret_l {A B} (a : A) (k : A -> M B) : bind (ret a) k = k a.
Proof. unfold bind, ret. destruct (k a); reflexivity. Qed.

Lemma bind_pair {A B} (evs : list event) (a : A) (k : A -> M B) :
  bind (evs, a) k = (evs ++ fst (k a), snd (k a)).
Proof. unfold bind. destruct (k a); reflexivity. Qed.

Lemma bind_assoc {A B C} (m : M A) (k : A -> M B) (h : B -> M C) :
  bind (bind m k) h = bind m (fun a => bind (k a) h).
Proof.
  destruct m as [evs a]. unfold bind.
  destruct (k a) as [evs1 b]. destruct (h b) as [evs2 c].
  now rewrite app_assoc.
Qed.

Lemma surjective_M {A} (m : M A) : m = (fst m, snd m).
Proof. now destruct m. Qed.

(** ** The loop as a fold *)

Lemma scan_step W name fi rest d :
  os.Name fi <> "index.html" ->
  scan W name (fi :: rest) d =
  bind (place W name fi) (fun p => scan W name rest (add d p)).
Proof.
  intros Hidx. apply String.eqb_neq in Hidx.
  simpl scan. unfold place.
  change (Name (entry name fi)) with (os.Name fi).
  destruct ((name =? ".")%string && (os.Name fi =? "pkg")%string).
  { now rewrite bind_ret_l. }
  rewrite Hidx.
  destruct (os.IsDir fi && showDir W (entry name fi)).
  { now rewrite bind_ret_l. }
  destruct (isDoc (os.Name fi)).
  - destruct (titled W (entry name fi)) as [evs e].
    unfold bind, ret.
    destruct (filepath.Ext (Path e) =? ".article")%string;
      [|destruct (filepath.Ext (Path e) =? ".slide")%string];
      cbn [add]; destruct (scan W name rest _); now rewrite ?app_nil_r.
  - destruct (showFile (os.Name fi)); now rewrite bind_ret_l.
Qed.

Lemma scan_listed W name fis : forall d,
  no_index fis ->
  scan W name fis d =
  (logs W name fis, Listed (fold_left add (placed W name fis) d)).
Proof.
  induction fis as [|fi rest IH]; intros d Hno; [reflexivity|].
  rewrite scan_step by (apply Hno; now left).
  rewrite (surjective_M (place W name fi)), bind_pair.
  rewrite IH by (intros x Hx; apply Hno; now right).
  reflexivity.
Qed.

Lemma scan_index W name fis : forall d,
  In "index.html" (map os.Name fis) ->
  exists pre fi rest,
    fis = pre ++ fi :: rest /\ no_index pre /\ os.Name fi = "index.html" /\
    scan W name fis d = (logs W name pre, Index (entry name fi)).
Proof.
  induction fis as [|fi rest IH]; intros d Hin; [destruct Hin|].
  destruct (String.eqb_spec (os.Name fi) "index.html") as [E|N].
  - exists [], fi, rest. repeat split; trivial.
    + intros x [].
    + simpl scan. rewrite E.
      replace ("index.html" =? "pkg")%string with false by reflexivity.
      now rewrite andb_false_r.
  - destruct Hin as [E|Hin]; [contradiction|].
    rewrite scan_step by assumption.
    rewrite (surjective_M (place W name fi)), bind_pair.
    destruct (IH (add d (snd (place W name fi))) Hin)
      as (pre & x & post & -> & Hno & Hx & Hscan).
    exists (fi :: pre), x, post. repeat split; trivial.
    + intros y [<-|Hy]; auto.
    + now rewrite Hscan.
Qed.

Lemma titled_spec W e :
  (exists err, parse W (Path e) present.TitlesOnly = Err err /\
               titled W e = ([log_Errorln err], e)) \/
  (exists p, parse W (Path e) present.TitlesOnly = Ok p /\
             titled W e =
             ([], {| Name := Name e; Path := Path e;
                     Title := present.Title p |})).
Proof.
  unfold titled. destruct (parse W (Path e) present.TitlesOnly); eauto.
Qed.

Lemma place_logs W name fi :
  Forall is_logged_error (fst (place W name fi)).
Proof.
  unfold place.
  destruct (_ && _); [constructor|].
  destruct (_ && _); [constructor|].
  destruct (isDoc _).
  - destruct (titled_spec W (entry name fi))
      as [(err & _ & ->)|(p & _ & ->)]; unfold bind, ret;
      repeat match goal with |- context [if ?b then _ else _] => destruct b end;
      cbn; repeat constructor; now exists err.
  - destruct (showFile _); constructor.
Qed.

Lemma logs_logged W name fis : Forall is_logged_error (logs W name fis).
Proof.
  induction fis as [|fi rest IH]; [constructor|].
  unfold logs. simpl. apply Forall_app. split; [apply place_logs|exact IH].
Qed.


(** ** What the fold puts where *)

Lemma fold_add ps : forall d,
  let d' := fold_left add ps d in
  DPath d' = DPath d /\
  Dirs d' = Dirs d ++ select inDirs ps /\
  Slides d' = Slides d ++ select inSlides ps /\
  Articles d' = Articles d ++ select inArticles ps /\
  Other d' = Other d ++ select inOther ps.
Proof.
  induction ps as [|p ps IH]; intros d; cbn zeta.
  - cbn. now rewrite !app_nil_r.
  - cbn [fold_left]. destruct (IH (add d p)) as (H0 & H1 & H2 & H3 & H4).
    rewrite H0, H1, H2, H3, H4.
    destruct p as [[[] e]|]; cbn; rewrite <- ?app_assoc; auto.
Qed.

Lemma listing_spec W name fis :
  let d := listing W name fis in
  let ps := placed W name fis in
  Dirs d = sort_Sort (select inDirs ps) /\
  Slides d = sort_Sort (select inSlides ps) /\
  Articles d = sort_Sort (select inArticles ps) /\
  Other d = sort_Sort (select inOther ps).
Proof.
  cbn zeta. unfold listing.
  destruct (fold_add (placed W name fis) (empty_listing name))
    as (_ & H1 & H2 & H3 & H4).
  cbn [finish Dirs Slides Articles Other].
  now rewrite H1, H2, H3, H4.
Qed.

(** [dirList] on a directory none of whose children is the index page. *)
Lemma dirList_listed W name f fi fis :
  os_Open W (filepath.Join [f_root W; name]) = Ok f ->
  os.Stat f = Ok fi -> os.IsDir fi = true -> os.Readdir f = Ok fis ->
  no_index fis ->
  let d := listing W name fis in
  dirList W name =
  (logs W name fis ++
     [dirList_Executed d (fst (dirListTemplate_Execute W d))],
   (true, snd (dirListTemplate_Execute W d))).
Proof.
  intros HO HS HD HR Hno. cbn zeta. unfold dirList.
  rewrite HO, HS, HD, HR. cbn [negb].
  rewrite scan_listed by assumption. rewrite bind_pair.
  fold (empty_listing name). fold (listing W name fis).
  destruct (dirListTemplate_Execute W (listing W name fis)) as [out err].
  reflexivity.
Qed.

(** [dirList] on a directory one of whose children is the index page. *)
Lemma dirList_index W name f fi fis :
  os_Open W (filepath.Join [f_root W; name]) = Ok f ->
  os.Stat f = Ok fi -> os.IsDir fi = true -> os.Readdir f = Ok fis ->
  In "index.html" (map os.Name fis) ->
  exists pre,
    (exists rest x, fis = pre ++ x :: rest) /\
    dirList W name =
    (logs W name pre ++
       fst (renderHTML W (filepath.Join [name; "index.html"])),
     (true, snd (renderHTML W (filepath.Join [name; "index.html"])))).
Proof.
  intros HO HS HD HR Hin. unfold dirList.
  rewrite HO, HS, HD, HR. cbn [negb].
  destruct (scan_index W name fis (empty_listing name) Hin)
    as (pre & x & rest & E & _ & Hx & Hscan).
  exists pre. split; [eauto|].
  fold (empty_listing name). rewrite Hscan, bind_pair.
  unfold entry. rewrite Hx. cbn [Path filepath.ToSlash].
  destruct (renderHTML W _) as [evs err]. unfold bind, ret. cbn.
  now rewrite app_nil_r.
Qed.

(** ** [sort.Sort] gives a sorted slice with the same entries *)

Lemma Less_false_ge a b : Less a b = false -> by_Name b a.
Proof.
  unfold Less, by_Name, String.ltb, String.leb.
  rewrite (String.compare_antisym (Name a) (Name b)).
  now destruct (String.compare (Name b) (Name a)).
Qed.

Lemma Less_true_le a b : Less a b = true -> by_Name a b.
Proof.
  unfold Less, by_Name, String.ltb, String.leb.
  now destruct (String.compare (Name a) (Name b)).
Qed.

Lemma insert_perm e s : Permutation (insert e s) (e :: s).
Proof.
  induction s as [|x r IH]; cbn; [reflexivity|].
  destruct (Less x e); [|reflexivity].
  rewrite IH. apply perm_swap.
Qed.

Lemma sort_Sort_perm s : Permutation (sort_Sort s) s.
Proof.
  induction s as [|x r IH]; cbn; [reflexivity|].
  rewrite insert_perm. now constructor.
Qed.

Lemma insert_sorted e s : Sorted by_Name s -> Sorted by_Name (insert e s).
Proof.
  induction 1 as [|x r Hr IH Hx]; cbn; [repeat constructor|].
  destruct (Less x e) eqn:L.
  - constructor; [exact IH|].
    destruct Hx as [|y r' Hxy]; cbn.
    + constructor. now apply Less_true_le.
    + destruct (Less y e); constructor; trivial. now apply Less_true_le.
  - constructor; [now constructor|]. constructor. now apply Less_false_ge.
Qed.

Lemma sort_Sort_sorted s : Sorted by_Name (sort_Sort s).
Proof.
  induction s as [|x r IH]; cbn; [constructor|]. now apply insert_sorted.
Qed.

Lemma finish_sorted d :
  Sorted by_Name (Dirs (finish d)) /\ Sorted by_Name (Slides (finish d)) /\
  Sorted by_Name (Articles (finish d)) /\ Sorted by_Name (Other (finish d)).
Proof. repeat split; apply sort_Sort_sorted. Qed.

(** ** The extension of a joined path

    [dirList] tests [isDoc] on the child's name and then switches on the
    extension of the child's path; the two agree because cleaning a path
    keeps its last element whenever that element has an extension. *)

Lemma string_app_assoc (a b c : string) :
  ((a ++ b) ++ c = a ++ (b ++ c))%string.
Proof. induction a as [|x a IH]; cbn; [reflexivity|now rewrite IH]. Qed.

Lemma list_ascii_app (a b : string) :
  list_ascii_of_string (a ++ b) =
  list_ascii_of_string a ++ list_ascii_of_string b.
Proof. induction a as [|x a IH]; cbn; [reflexivity|now rewrite IH]. Qed.

Lemma ext_scan_app r r' : forall t,
  filepath.ext_scan r t <> [] ->
  filepath.ext_scan (r ++ r') t = filepath.ext_scan r t.
Proof.
  induction r as [|c r IH]; intros t H; cbn in *; [contradiction|].
  destruct (Ascii.eqb c "/"); [contradiction|].
  destruct (Ascii.eqb c "."); [reflexivity|]. now apply IH.
Qed.

Lemma Ext_nonempty_scan c :
  filepath.Ext c <> "" ->
  filepath.ext_scan (rev (list_ascii_of_string c)) [] <> [].
Proof. unfold filepath.Ext. intros H E. apply H. now rewrite E. Qed.

Lemma Ext_app_r (p c : string) :
  filepath.Ext c <> "" -> filepath.Ext (p ++ c) = filepath.Ext c.
Proof.
  intros H. unfold filepath.Ext.
  rewrite list_ascii_app, rev_app_distr.
  now rewrite ext_scan_app by now apply Ext_nonempty_scan.
Qed.

Lemma concat_last (l : list string) (c : string) :
  exists pre, String.concat "/" (l ++ [c]) = (pre ++ c)%string.
Proof.
  induction l as [|x l (pre & IH)]; [now exists ""|].
  cbn [app String.concat]. rewrite IH.
  destruct (l ++ [c]) eqn:E; [now destruct l|].
  exists (x ++ "/" ++ pre)%string.
  now rewrite !string_app_assoc.
Qed.

Lemma Ext_concat_last (s : string) (l : list string) (c : string) :
  filepath.Ext c <> "" ->
  filepath.Ext (s ++ String.concat "/" (l ++ [c])) = filepath.Ext c.
Proof.
  intros H. destruct (concat_last l c) as (pre & ->).
  rewrite <- string_app_assoc. now apply Ext_app_r.
Qed.

Lemma split_nonempty p : filepath.split p <> [].
Proof.
  destruct p as [|c s]; cbn; [discriminate|].
  destruct (Ascii.eqb c "/"); [discriminate|].
  destruct (filepath.split s); discriminate.
Qed.

Lemma split_app (a b : string) :
  filepath.split (a ++ "/" ++ b) = filepath.split a ++ filepath.split b.
Proof.
  induction a as [|c a IH]; [reflexivity|].
  cbn [append filepath.split]. fold (append "/" b). rewrite IH.
  destruct (Ascii.eqb c "/"); [reflexivity|].
  destruct (filepath.split a) eqn:E; [now apply split_nonempty in E|].
  reflexivity.
Qed.

Lemma last_elem_app (a b : string) :
  last_elem (a ++ "/" ++ b) = last_elem b.
Proof.
  unfold last_elem. rewrite split_app.
  destruct (exists_last (split_nonempty b)) as (l & c & ->).
  now rewrite app_assoc, !last_last.
Qed.

(** Scanning an element that has no dot ends at the slash before it. *)
Lemma ext_scan_elem r r' : forall t,
  forallb (fun c => negb (Ascii.eqb c "/")) r = true ->
  match r' with [] => True | c :: _ => c = "/"%char end ->
  filepath.ext_scan (r ++ r') t = filepath.ext_scan r t.
Proof.
  induction r as [|c r IH]; intros t Hr Hr'; cbn in *.
  - destruct r' as [|c r']; [reflexivity|]. now subst.
  - apply andb_true_iff in Hr as [Hc Hr].
    destruct (Ascii.eqb c "/"); [reflexivity|].
    destruct (Ascii.eqb c "."); [reflexivity|]. now apply IH.
Qed.

Lemma split_no_slash p : Forall (fun x => no_slash x = true) (filepath.split p).
Proof.
  induction p as [|c s IH]; cbn; [repeat constructor|].
  destruct (Ascii.eqb c "/") eqn:E; [now constructor|].
  destruct (filepath.split s) as [|x r]; [repeat constructor; cbn; now rewrite E|].
  inversion IH; subst. constructor; trivial.
  unfold no_slash in *. cbn. now rewrite E.
Qed.

Lemma split_concat p : String.concat "/" (filepath.split p) = p.
Proof.
  induction p as [|c s IH]; [reflexivity|]. cbn [filepath.split].
  destruct (Ascii.eqb_spec c "/") as [->|N].
  - cbn [String.concat]. rewrite IH.
    destruct (filepath.split s) eqn:E; [now apply split_nonempty in E|].
    reflexivity.
  - destruct (filepath.split s) as [|x r] eqn:E; [now apply split_nonempty in E|].
    cbn [String.concat] in *. destruct r; cbn; now rewrite <- IH.
Qed.

Lemma concat_last_slash (l : list string) (c : string) :
  exists pre,
    String.concat "/" (l ++ [c]) = (pre ++ c)%string /\
    match rev (list_ascii_of_string pre) with
    | [] => True
    | x :: _ => x = "/"%char
    end.
Proof.
  induction l as [|x l (pre & IH & Hpre)]; [now exists ""|].
  cbn [app String.concat]. rewrite IH.
  destruct (l ++ [c]) eqn:E; [now destruct l|].
  exists (x ++ "/" ++ pre)%string. split; [now rewrite !string_app_assoc|].
  rewrite !list_ascii_app, !rev_app_distr.
  destruct (rev (list_ascii_of_string pre)); [reflexivity|exact Hpre].
Qed.

(** [Ext] only looks at the last element of the path. *)
Lemma Ext_last_elem p : filepath.Ext p = filepath.Ext (last_elem p).
Proof.
  unfold last_elem.
  pose proof (split_no_slash p) as Hns.
  rewrite <- (split_concat p) at 1.
  destruct (exists_last (split_nonempty p)) as (l & c & E).
  rewrite E in *. rewrite last_last.
  apply Forall_app in Hns as [_ Hc]. inversion Hc as [|? ? Hc' _]; subst.
  destruct (concat_last_slash l c) as (pre & -> & Hpre).
  unfold filepath.Ext. rewrite list_ascii_app, rev_app_distr.
  rewrite ext_scan_elem; trivial.
  unfold no_slash in Hc'. rewrite forallb_forall in *.
  intros x Hx. apply Hc'. now apply in_rev.
Qed.

Lemma Ext_special c :
  filepath.Ext c <> "" -> filepath.Ext c <> "." ->
  c <> "" /\ c <> "." /\ c <> "..".
Proof. intros H1 H2. repeat split; intros ->; auto. Qed.

Lemma Ext_Clean p :
  filepath.Ext p <> "" -> filepath.Ext p <> "." ->
  filepath.Ext (filepath.Clean p) = filepath.Ext p.
Proof.
  intros H1 H2. rewrite (Ext_last_elem p) in *. unfold last_elem in *.
  unfold filepath.Clean.
  destruct (String.eqb_spec p "") as [->|_]; [now elim H1|].
  destruct (exists_last (split_nonempty p)) as (l & c & E).
  rewrite E in *. rewrite last_last in *.
  destruct (Ext_special c H1 H2) as (N1 & N2 & N3).
  rewrite fold_left_app. cbn [fold_left].
  unfold filepath.clean_step at 1.
  apply String.eqb_neq in N1, N2, N3. rewrite N1, N2, N3.
  cbn [rev]. now apply Ext_concat_last.
Qed.

Lemma Ext_Join name n :
  filepath.Ext n <> "" -> filepath.Ext n <> "." ->
  filepath.Ext (filepath.Join [name; n]) = filepath.Ext n.
Proof.
  intros H1 H2. cbn [filepath.Join].
  destruct (String.eqb_spec name "") as [->|_].
  - destruct (String.eqb_spec n "") as [->|_]; [now elim H1|].
    cbn [String.concat]. now apply Ext_Clean.
  - cbn [String.concat].
    assert (E : filepath.Ext (name ++ "/" ++ n) = filepath.Ext n).
    { now rewrite Ext_last_elem, last_elem_app, <- Ext_last_elem. }
    rewrite <- E in *. now apply Ext_Clean.
Qed.

(** A document name keeps its extension, hence its kind, in its path. *)
Lemma isDoc_Ext n :
  isDoc n = true -> filepath.Ext n = ".slide" \/ filepath.Ext n = ".article".
Proof.
  unfold isDoc, contentTemplate. cbn [lookup].
  destruct (String.eqb_spec ".slide" (filepath.Ext n)); [now left|].
  destruct (String.eqb_spec ".article" (filepath.Ext n)); [now right|].
  discriminate.
Qed.

Lemma isDoc_Path name fi :
  isDoc (os.Name fi) = true ->
  filepath.Ext (Path (entry name fi)) = filepath.Ext (os.Name fi).
Proof.
  intros H. cbn [entry Path filepath.ToSlash].
  apply Ext_Join; destruct (isDoc_Ext _ H) as [-> | ->]; discriminate.
Qed.

(** ** One round of the loop, case by case *)

Lemma isDoc_not_skipped name fi :
  isDoc (os.Name fi) = true -> skipped name fi = false.
Proof.
  intros H. unfold skipped.
  destruct (String.eqb_spec (os.Name fi) "pkg") as [E|_];
    [|apply andb_false_r].
  rewrite E in H. discriminate.
Qed.

Lemma place_dir W name fi :
  skipped name fi = false ->
  os.IsDir fi && showDir W (entry name fi) = true ->
  place W name fi = ([], Some (inDirs, entry name fi)).
Proof. unfold place, skipped. now intros -> ->. Qed.

Lemma place_doc W name fi :
  os.IsDir fi && showDir W (entry name fi) = false ->
  isDoc (os.Name fi) = true ->
  exists c,
    kind_of_name (os.Name fi) = Some c /\ (c = inSlides \/ c = inArticles) /\
    place W name fi =
    (fst (titled W (entry name fi)), Some (c, snd (titled W (entry name fi)))).
Proof.
  intros Hd Hdoc. unfold place. fold (skipped name fi).
  rewrite (isDoc_not_skipped name fi Hdoc), Hd.
  change (Name (entry name fi)) with (os.Name fi). rewrite Hdoc.
  assert (HP : Path (snd (titled W (entry name fi))) = Path (entry name fi)).
  { destruct (titled_spec W (entry name fi))
      as [(err & _ & ->)|(p & _ & ->)]; reflexivity. }
  pose proof (isDoc_Path name fi Hdoc) as HE.
  unfold kind_of_name. rewrite Hdoc.
  rewrite (surjective_M (titled W (entry name fi))), bind_pair. cbn [fst snd].
  rewrite HP, HE.
  destruct (isDoc_Ext _ Hdoc) as [E|E]; rewrite E; cbn.
  - exists inSlides. rewrite app_nil_r. auto.
  - exists inArticles. rewrite app_nil_r. auto.
Qed.

Lemma place_plain W name fi :
  skipped name fi = false ->
  os.IsDir fi && showDir W (entry name fi) = false ->
  isDoc (os.Name fi) = false ->
  place W name fi =
  ([], option_map (fun c => (c, entry name fi)) (kind_of_name (os.Name fi))).
Proof.
  intros Hs Hd Hdoc. unfold place. fold (skipped name fi).
  rewrite Hs, Hd. change (Name (entry name fi)) with (os.Name fi).
  unfold kind_of_name. rewrite Hdoc. now destruct (showFile _).
Qed.

Lemma place_skipped W name fi :
  skipped name fi = true -> place W name fi = ([], None).
Proof. unfold place, skipped. now intros ->. Qed.

Lemma titled_Name W e : Name (snd (titled W e)) = Name e.
Proof.
  destruct (titled_spec W e) as [(err & _ & ->)|(p & _ & ->)]; reflexivity.
Qed.

(** A child lands in [Dirs] exactly by the directory branch. *)
Lemma place_inDirs W name fi e :
  snd (place W name fi) = Some (inDirs, e) <->
  skipped name fi = false /\ os.IsDir fi = true /\
  showDir W (entry name fi) = true /\ e = entry name fi.
Proof.
  destruct (skipped name fi) eqn:Hs.
  { rewrite place_skipped by assumption. cbn. split; [discriminate|].
    now intros (? & _). }
  destruct (os.IsDir fi && showDir W (entry name fi)) eqn:Hd.
  { rewrite place_dir by assumption. cbn.
    apply andb_true_iff in Hd as [Hd1 Hd2].
    split; [intros [= <-]; auto|intros (_ & _ & _ & ->); reflexivity]. }
  assert (Hno : ~ (os.IsDir fi = true /\ showDir W (entry name fi) = true)).
  { intros [H1 H2]. rewrite H1, H2 in Hd. discriminate. }
  destruct (isDoc (os.Name fi)) eqn:Hdoc.
  - destruct (place_doc W name fi Hd Hdoc) as (c & _ & Hc & ->). cbn.
    split; [intros [= -> _]; destruct Hc; discriminate|].
    intros (_ & H1 & H2 & _). elim Hno; auto.
  - rewrite place_plain by assumption. cbn. unfold kind_of_name.
    rewrite Hdoc. split.
    + destruct (showFile _); cbn; discriminate.
    + intros (_ & H1 & H2 & _). elim Hno; auto.
Qed.

Lemma In_select c e ps : In e (select c ps) <-> In (Some (c, e)) ps.
Proof.
  unfold select. rewrite in_flat_map. split.
  - intros ([[c' e']|] & Hin & H); [|destruct H].
    destruct c, c'; cbn in H; try contradiction;
      destruct H as [<-|[]]; exact Hin.
  - intros H. exists (Some (c, e)). split; [exact H|].
    destruct c; cbn; auto.
Qed.

Lemma In_sort_Sort e s : In e (sort_Sort s) <-> In e s.
Proof.
  split; apply Permutation_in;
    [apply sort_Sort_perm|apply Permutation_sym, sort_Sort_perm].
Qed.

Lemma In_placed W name fis p :
  In p (placed W name fis) <-> exists fi, In fi fis /\ snd (place W name fi) = p.
Proof.
  unfold placed. rewrite in_map_iff. split; intros (fi & H1 & H2); eauto.
Qed.

(** Membership in the [Dirs] of a listing. *)
Lemma In_listing_Dirs W name fis e :
  In e (Dirs (listing W name fis)) <->
  exists fi, In fi fis /\ skipped name fi = false /\ os.IsDir fi = true /\
             showDir W (entry name fi) = true /\ e = entry name fi.
Proof.
  destruct (listing_spec W name fis) as (-> & _).
  rewrite In_sort_Sort, In_select, In_placed.
  split; intros (fi & Hin & H); exists fi; (split; [exact Hin|]);
    now apply place_inDirs.
Qed.

(** ** C1: the legacy repository redirect *)




(** ** C2: the parse mode *)

(** C2 (code at the failing input): [parse] hands the literal full mode
    to the parser whatever mode it is given, so the title-only parse of
    a listing is a full parse: on "talks/b.slide" the sections come
    back, which the title-only mode of the parser leaves out. *)
Theorem parse_drops_mode :
  (forall W name mode, parse W name mode = parse W name 0%Z) /\
  parse W1 "talks/b.slide" present.TitlesOnly =
    Ok {| present.Title := "Bee"; present.Sections := ["body"] |} /\
  (exists f, os_Open W1 (filepath.Join [f_root W1; "talks/b.slide"]) = Ok f /\
             present_Parse W1 f "talks/b.slide" present.TitlesOnly =
             Ok {| present.Title := "Bee"; present.Sections := [] |}).
Proof.
  split; [reflexivity|]. split; [reflexivity|].
  eexists. split; reflexivity.
Qed.

(** ** C3: the static fallback *)

(** C3 (amended): for every request whose path is neither under the
    legacy prefix nor the favicon path, whose resolved name has no
    document extension and not the extension ".html": when the name can
    be opened and inspected and is not a directory, the Router hands the
    unchanged request to the static file responder and does nothing
    else; when opening the name fails (an absent file for one), the
    Router logs the error and answers 500 with the error text, and the
    static responder is not reached. *)
Theorem static_fallthrough_or_500 W r :
  HasPrefix (url.Path (URL r)) "/minimega.git" = false ->
  url.Path (URL r) <> "/favicon.ico" ->
  isDoc (resolved r) = false ->
  filepath.Ext (resolved r) <> ".html" ->
  (forall f fi,
      os_Open W (filepath.Join [f_root W; resolved r]) = Ok f ->
      os.Stat f = Ok fi -> os.IsDir fi = false ->
      static_fallthrough W r) /\
  (forall err,
      os_Open W (filepath.Join [f_root W; resolved r]) = Err err ->
      dirHandler W r = ([log_Errorln err; http_Error err 500], tt)).
Proof.
  intros Hleg Hfav Hdoc Hhtml.
  apply String.eqb_neq in Hfav, Hhtml. unfold resolved in *.
  split.
  - intros f fi HO HS HD. unfold static_fallthrough, dirHandler.
    rewrite Hleg, Hfav, Hdoc. unfold dirList. rewrite HO, HS, HD.
    cbn [negb]. rewrite bind_ret_l. now rewrite Hhtml.
  - intros err HO. unfold dirHandler.
    rewrite Hleg, Hfav, Hdoc. unfold dirList. rewrite HO.
    now rewrite bind_ret_l.
Qed.

Lemma static_fallthrough_or_500_witness :
  static_fallthrough W1 (demo.get "/talks/z.pdf" "") /\
  dirHandler W1 (demo.get "/missing.txt" "") =
    ([log_Errorln "open /srv/missing.txt: no such file or directory";
      http_Error "open /srv/missing.txt: no such file or directory" 500], tt).
Proof.
  split.
  - refine (proj1 (static_fallthrough_or_500 W1 (demo.get "/talks/z.pdf" "")
                     eq_refl _ eq_refl _) _ _ eq_refl eq_refl eq_refl);
      discriminate.
  - refine (proj2 (static_fallthrough_or_500 W1 (demo.get "/missing.txt" "")
                     eq_refl _ eq_refl _) _ eq_refl);
      discriminate.
Defined.

(** C3 as worded fails: "/missing.txt" has no document extension, is no
    directory and is no ".html", yet the absent file is answered with a
    500 and never reaches the static responder. *)
Lemma absent_file_is_500 :
  isDoc (resolved (demo.get "/missing.txt" "")) = false /\
  ~ resolves_to_dir W1 (resolved (demo.get "/missing.txt" "")) /\
  filepath.Ext (resolved (demo.get "/missing.txt" "")) <> ".html" /\
  dirHandler W1 (demo.get "/missing.txt" "") =
    ([log_Errorln "open /srv/missing.txt: no such file or directory";
      http_Error "open /srv/missing.txt: no such file or directory" 500], tt) /\
  ~ falls_through_whenever W1 (demo.get "/missing.txt" "").
Proof.
  assert (Hdir : ~ resolves_to_dir W1 (resolved (demo.get "/missing.txt" ""))).
  { intros (f & fi & HO & _). vm_compute in HO. discriminate HO. }
  split; [reflexivity|]. split; [exact Hdir|].
  split; [discriminate|]. split; [reflexivity|].
  intros H. specialize (H eq_refl Hdir). unfold static_fallthrough in H.
  assert (Hx : filepath.Ext (resolved (demo.get "/missing.txt" "")) <> ".html")
    by discriminate.
  specialize (H Hx). vm_compute in H. discriminate H.
Qed.

(** ** C4: the categories of a listing *)

Lemma category_of_listing W name fis c :
  category_of c (listing W name fis) = sort_Sort (select c (placed W name fis)).
Proof.
  destruct (listing_spec W name fis) as (H1 & H2 & H3 & H4).
  destruct c; assumption.
Qed.

Lemma showDir_hidden W e : hidden_name (Name e) = true -> showDir W e = false.
Proof. unfold showDir. now intros ->. Qed.

Lemma filed_spec W name fi :
  filed fi = true ->
  skipped name fi = false /\
  os.IsDir fi && showDir W (entry name fi) = false.
Proof.
  unfold filed, skipped. intros H.
  apply andb_true_iff in H as [H1 H2]. apply negb_true_iff in H1.
  rewrite H1, andb_false_r. split; [reflexivity|].
  apply orb_true_iff in H2 as [H2|H2].
  - apply negb_true_iff in H2. now rewrite H2.
  - rewrite (showDir_hidden W (entry name fi)) by exact H2.
    apply andb_false_r.
Qed.

Lemma place_kind W name fi c :
  filed fi = true ->
  map Name (select c [snd (place W name fi)]) = names_in c [fi].
Proof.
  intros H. destruct (filed_spec W name fi H) as [Hs Hd].
  unfold names_in. cbn [flat_map]. rewrite app_nil_r.
  destruct (isDoc (os.Name fi)) eqn:Hdoc.
  - destruct (place_doc W name fi Hd Hdoc) as (c' & -> & _ & ->).
    cbn. destruct (category_eqb c c'); [|reflexivity].
    cbn. now rewrite titled_Name.
  - rewrite place_plain by assumption. cbn [snd].
    destruct (kind_of_name (os.Name fi)) as [c'|]; [|reflexivity].
    cbn. now destruct (category_eqb c c').
Qed.

Lemma select_cons c p ps : select c (p :: ps) = select c [p] ++ select c ps.
Proof. unfold select. cbn [flat_map]. now rewrite app_nil_r. Qed.

Lemma names_placed W name c fis :
  forallb filed fis = true ->
  map Name (select c (placed W name fis)) = names_in c fis.
Proof.
  induction fis as [|fi rest IH]; intros H; [reflexivity|].
  cbn [forallb] in H. apply andb_true_iff in H as [H1 H2].
  change (placed W name (fi :: rest))
    with (snd (place W name fi) :: placed W name rest).
  rewrite (select_cons c), map_app, place_kind, IH by assumption.
  unfold names_in. cbn [flat_map]. now rewrite app_nil_r.
Qed.

Lemma sorted_names s :
  Sorted by_Name s -> Sorted names_ascending (map Name s).
Proof.
  induction 1 as [|x r Hr IH Hx]; cbn; constructor; trivial.
  destruct Hx; cbn; constructor; assumption.
Qed.

Lemma placed_perm W name fis fis' c :
  Permutation fis fis' ->
  Permutation (select c (placed W name fis)) (select c (placed W name fis')).
Proof.
  intros H. unfold select, placed.
  apply Permutation_flat_map. now apply Permutation_map.
Qed.

(** The names in a category of a listing: sorted, and those the
    children contribute, whatever the order of enumeration. *)
Lemma listing_names W name fis fis0 c :
  Permutation fis fis0 -> forallb filed fis0 = true ->
  Sorted names_ascending (map Name (category_of c (listing W name fis))) /\
  Permutation (map Name (category_of c (listing W name fis))) (names_in c fis0).
Proof.
  intros HP Hf. rewrite category_of_listing. split.
  - apply sorted_names, sort_Sort_sorted.
  - rewrite <- (names_placed W name c fis0 Hf).
    apply Permutation_map.
    rewrite sort_Sort_perm. now apply placed_perm.
Qed.

Lemma perm_nil {A} (l : list A) : Permutation l [] -> l = [].
Proof. intros H. now apply Permutation_nil, Permutation_sym. Qed.

Lemma perm_one {A} (l : list A) a : Permutation l [a] -> l = [a].
Proof. intros H. now apply Permutation_length_1_inv, Permutation_sym. Qed.

Lemma sorted_perm_two l a b :
  Sorted names_ascending l -> Permutation l [a; b] ->
  (b <=? a)%string = false -> l = [a; b].
Proof.
  intros Hs HP Hba.
  apply Permutation_sym, Permutation_length_2_inv in HP as [->| ->]; trivial.
  inversion Hs as [|? ? _ Hhd]; subst. inversion Hhd as [|? ? Hle]; subst.
  unfold names_ascending in Hle. congruence.
Qed.

Lemma no_index_perm fis fis0 :
  Permutation fis fis0 ->
  forallb (fun fi => negb (os.Name fi =? "index.html")%string) fis0 = true ->
  no_index fis.
Proof.
  intros HP H fi Hin E. rewrite forallb_forall in H.
  specialize (H fi (Permutation_in _ HP Hin)). rewrite E in H. discriminate H.
Qed.

Lemma renderHTML_events W p ev :
  In ev (fst (renderHTML W p)) ->
  (exists msg, ev = log_Info msg) \/ (exists f out, ev = html_Executed f out).
Proof.
  unfold renderHTML, bind, emit, ret.
  destruct (Clone W (layoutTemplate W)) as [t|err].
  - destruct (ParseFiles W t _) as [t'|err].
    + destruct (Execute W t') as [out err]. cbn.
      intros [<-|[<-|[]]]; eauto.
    + cbn. intros [<-|[]]; eauto.
  - cbn. intros [<-|[]]; eauto.
Qed.

Lemma logged_not_executed evs d out :
  Forall is_logged_error evs -> ~ In (dirList_Executed d out) evs.
Proof.
  intros H Hin. rewrite Forall_forall in H.
  destruct (H _ Hin) as (err & E). discriminate E.
Qed.

Lemma index_or_not fis :
  In "index.html" (map os.Name fis) \/ no_index fis.
Proof.
  destruct (in_dec string_dec "index.html" (map os.Name fis)) as [H|H];
    [now left|right].
  intros fi Hin E. apply H. rewrite <- E. now apply in_map.
Qed.

(** Whatever [dirList] hands to the listing template is [listing]. *)
Lemma executed_is_listing W name f fi fis d out :
  os_Open W (filepath.Join [f_root W; name]) = Ok f ->
  os.Stat f = Ok fi -> os.IsDir fi = true -> os.Readdir f = Ok fis ->
  In (dirList_Executed d out) (fst (dirList W name)) ->
  d = listing W name fis.
Proof.
  intros HO HS HD HR Hin.
  destruct (index_or_not fis) as [Hidx|Hno].
  - destruct (dirList_index W name f fi fis HO HS HD HR Hidx) as (pre & _ & E).
    rewrite E in Hin. cbn [fst] in Hin. apply in_app_or in Hin as [Hin|Hin].
    + now apply logged_not_executed in Hin; [|apply logs_logged].
    + apply renderHTML_events in Hin as [(m & E')|(x & y & E')]; discriminate.
  - rewrite (dirList_listed W name f fi fis HO HS HD HR Hno) in Hin.
    cbn [fst] in Hin. apply in_app_or in Hin as [Hin|Hin].
    + now apply logged_not_executed in Hin; [|apply logs_logged].
    + destruct Hin as [[= <- _]|[]]. reflexivity.
Qed.

(** C4: whatever data the listing template is executed on, each of its
    four categories is sorted ascending by Name; a directory holding the
    files b.slide, a.article, z.pdf and the hidden directory .git is
    listed with Dirs empty, Slides b.slide, Articles a.article and Other
    z.pdf; with c.slide added, Slides is b.slide then c.slide; both in
    whatever order the file system enumerates the children. *)
Theorem dirList_categories W name f fi fis :
  os_Open W (filepath.Join [f_root W; name]) = Ok f ->
  os.Stat f = Ok fi -> os.IsDir fi = true -> os.Readdir f = Ok fis ->
  (forall d out,
      In (dirList_Executed d out) (fst (dirList W name)) ->
      Sorted by_Name (Dirs d) /\ Sorted by_Name (Slides d) /\
      Sorted by_Name (Articles d) /\ Sorted by_Name (Other d)) /\
  (Permutation fis four_children ->
   exists d, lists W name d /\
     Dirs d = [] /\ map Name (Slides d) = ["b.slide"] /\
     map Name (Articles d) = ["a.article"] /\ map Name (Other d) = ["z.pdf"]) /\
  (Permutation fis five_children ->
   exists d, lists W name d /\
     Dirs d = [] /\ map Name (Slides d) = ["b.slide"; "c.slide"] /\
     map Name (Articles d) = ["a.article"] /\ map Name (Other d) = ["z.pdf"]).
Proof.
  intros HO HS HD HR. split; [|split].
  - intros d out Hin.
    rewrite (executed_is_listing W name f fi fis d out HO HS HD HR Hin).
    apply finish_sorted.
  - intros HP.
    assert (Hno : no_index fis) by (now apply (no_index_perm _ _ HP)).
    exists (listing W name fis). split.
    { eexists _, _, _. now apply (dirList_listed W name f fi fis). }
    pose proof (fun c => listing_names W name fis four_children c HP eq_refl)
      as H.
    destruct (H inDirs) as [_ H1]. destruct (H inSlides) as [_ H2].
    destruct (H inArticles) as [_ H3]. destruct (H inOther) as [_ H4].
    cbn [category_of] in *.
    apply perm_nil, map_eq_nil in H1.
    apply perm_one in H2, H3, H4. auto.
  - intros HP.
    assert (Hno : no_index fis) by (now apply (no_index_perm _ _ HP)).
    exists (listing W name fis). split.
    { eexists _, _, _. now apply (dirList_listed W name f fi fis). }
    pose proof (fun c => listing_names W name fis five_children c HP eq_refl)
      as H.
    destruct (H inDirs) as [_ H1]. destruct (H inSlides) as [S2 H2].
    destruct (H inArticles) as [_ H3]. destruct (H inOther) as [_ H4].
    cbn [category_of] in *.
    apply perm_nil, map_eq_nil in H1.
    apply perm_one in H3, H4.
    apply (sorted_perm_two _ _ _ S2) in H2; [auto|reflexivity].
Qed.

Lemma dirList_categories_witness :
  (exists d, lists W1 "talks" d /\
     Dirs d = [] /\ map Name (Slides d) = ["b.slide"] /\
     map Name (Articles d) = ["a.article"] /\ map Name (Other d) = ["z.pdf"]) /\
  (exists d, lists W1 "more" d /\
     Dirs d = [] /\ map Name (Slides d) = ["b.slide"; "c.slide"] /\
     map Name (Articles d) = ["a.article"] /\ map Name (Other d) = ["z.pdf"]).
Proof.
  split.
  - refine (proj1 (proj2 (dirList_categories W1 "talks" _ _ _
                            eq_refl eq_refl eq_refl eq_refl)) _).
    apply Permutation_refl.
  - refine (proj2 (proj2 (dirList_categories W1 "more" _ _ _
                            eq_refl eq_refl eq_refl eq_refl)) _).
    unfold five_children, four_children. cbn [app].
    apply Permutation_sym.
    apply (Permutation_cons_app
             [demo.file "c.slide"; demo.dir ".git"; demo.file "z.pdf"]
             [demo.file "a.article"]).
    cbn [app].
    apply (Permutation_cons_app
             [demo.file "c.slide"; demo.dir ".git"; demo.file "z.pdf"] []).
    cbn [app].
    apply (Permutation_cons_app
             [demo.file "c.slide"; demo.dir ".git"] []).
    cbn [app]. apply perm_swap.
Defined.

(** ** C5: the index page *)




(** ** C6: a directory that is not shown *)

(** C6 (code at the failing input): the child directory "_old.pdf" of
    "docs" fails [showDir], and the listing of "docs" shows it all the
    same, in the Other category. *)
Theorem hidden_directory_listed_as_file :
  showDir W1 (entry "docs" (demo.dir "_old.pdf")) = false /\
  exists d, lists W1 "docs" d /\ In (entry "docs" (demo.dir "_old.pdf")) (Other d).
Proof.
  split; [reflexivity|].
  eexists. split.
  - exists [], "<dir>docs", None. vm_compute. reflexivity.
  - cbn. left. reflexivity.
Qed.

(** ** C7: which directories are shown *)

Lemma prefix_char a c n :
  String.prefix (String a "") (String c n) = true <-> a = c.
Proof.
  cbn. destruct (ascii_dec a c) as [E|N].
  - destruct n; tauto.
  - split; [discriminate|contradiction].
Qed.

Lemma hidden_name_prefix n :
  hidden_name n = true <->
  String.prefix "." n = true \/ String.prefix "_" n = true.
Proof.
  destruct n as [|c n]; [cbn; intuition discriminate|].
  rewrite !prefix_char. cbn [hidden_name]. rewrite orb_true_iff.
  rewrite !Ascii.eqb_eq. intuition.
Qed.

Lemma showDir_false_iff W e :
  showDir W e = false <->
  String.prefix "." (Name e) = true \/ String.prefix "_" (Name e) = true \/
  Name e = "present" \/ no_visible_child W e.
Proof.
  unfold showDir, no_visible_child.
  destruct (hidden_name (Name e)) eqn:Hh.
  { cbn. apply hidden_name_prefix in Hh. intuition. }
  assert (Hh' : ~ (String.prefix "." (Name e) = true \/
                   String.prefix "_" (Name e) = true)).
  { intros H. apply hidden_name_prefix in H. congruence. }
  destruct (String.eqb_spec (Name e) "present") as [E|N]; cbn.
  { intuition. }
  destruct (ioutil_ReadDir W _) as [files|err].
  - split.
    + intros H. do 3 right. intros ? [= <-] x Hx.
      destruct (showFile (os.Name x)) eqn:Hs; trivial.
      assert (existsb (fun f => showFile (os.Name f)) files = true)
        by (apply existsb_exists; eauto).
      congruence.
    + intros [H|[H|[H|H]]]; [elim Hh'; auto|elim Hh'; auto|contradiction|].
      destruct (existsb _ files) eqn:Hex; trivial.
      apply existsb_exists in Hex as (x & Hx & Hs).
      rewrite (H files eq_refl x Hx) in Hs. discriminate Hs.
  - split; [|reflexivity]. intros _. do 3 right. discriminate.
Qed.

(** C7 (amended): in a listing, a child directory other than the entry
    "pkg" of the serving root (which is skipped before any test) is in
    the Dirs category if and only if it passes [showDir]; and it fails
    [showDir] exactly when its name starts with '.' or '_', or equals
    "present", or none of its enumerated immediate children passes the
    file-visibility predicate (a directory that cannot be enumerated has
    none). *)
Theorem Dirs_iff_showDir W name f fi fis :
  os_Open W (filepath.Join [f_root W; name]) = Ok f ->
  os.Stat f = Ok fi -> os.IsDir fi = true -> os.Readdir f = Ok fis ->
  no_index fis ->
  exists d, lists W name d /\
    forall child,
      In child fis -> os.IsDir child = true -> skipped name child = false ->
      let e := entry name child in
      in_Dirs_iff_showDir W name d child /\
      (showDir W e = false <->
       String.prefix "." (Name e) = true \/ String.prefix "_" (Name e) = true \/
       Name e = "present" \/ no_visible_child W e).
Proof.
  intros HO HS HD HR Hno. exists (listing W name fis). split.
  { eexists _, _, _. now apply (dirList_listed W name f fi fis). }
  intros child Hin Hdir Hskip e. split; [|apply showDir_false_iff].
  unfold in_Dirs_iff_showDir. rewrite In_listing_Dirs. split.
  - intros (x & _ & _ & _ & Hshow & E). now rewrite E.
  - intros Hshow. exists child. auto.
Qed.

Lemma Dirs_iff_showDir_witness :
  exists d, lists W1 "docs" d /\
    in_Dirs_iff_showDir W1 "docs" d (demo.dir "only_txt") /\
    showDir W1 (entry "docs" (demo.dir "only_txt")) = false.
Proof.
  destruct (Dirs_iff_showDir W1 "docs" _ _ _ eq_refl eq_refl eq_refl eq_refl)
    as (d & Hd & H).
  { intros x [<-|[<-|[<-|[<-|[]]]]]; discriminate. }
  exists d. split; [exact Hd|].
  destruct (H (demo.dir "only_txt")) as [H1 _]; [cbn; tauto|reflexivity..|].
  split; [exact H1|reflexivity].
Defined.

(** C7 as worded fails: in the listing of the serving root, the child
    directory "pkg" passes [showDir] and is not in Dirs. *)
Lemma pkg_shown_by_showDir_not_listed :
  (exists f fis,
      os_Open W1 (filepath.Join [f_root W1; "."]) = Ok f /\
      os.Readdir f = Ok fis /\ In (demo.dir "pkg") fis) /\
  showDir W1 (entry "." (demo.dir "pkg")) = true /\
  exists d, lists W1 "." d /\ ~ in_Dirs_iff_showDir W1 "." d (demo.dir "pkg").
Proof.
  split; [|split; [reflexivity|]].
  - eexists _, _. split; [reflexivity|]. split; [reflexivity|].
    cbn. tauto.
  - eexists. split.
    + exists [], "<dir>", None. vm_compute. reflexivity.
    + intros [_ H]. specialize (H eq_refl). cbn in H.
      repeat (destruct H as [H|H]; [discriminate H|]). exact H.
Qed.

(** ** C8: a title that cannot be parsed *)

Lemma In_logs W name fis fi ev :
  In fi fis -> In ev (fst (place W name fi)) -> In ev (logs W name fis).
Proof.
  intros H1 H2. unfold logs. apply in_flat_map. eauto.
Qed.

Lemma In_listing W name fis c e :
  In e (category_of c (listing W name fis)) <->
  exists fi, In fi fis /\ snd (place W name fi) = Some (c, e).
Proof.
  now rewrite category_of_listing, In_sort_Sort, In_select, In_placed.
Qed.

(** C8: when the title parse of a document child fails during a
    listing, the error is logged and nothing else happens to it: the
    listing template is still executed, [dirList] returns isDir = true
    with the error of that execution alone, and the child's entry, with
    an empty Title, is in Slides or Articles according to its
    extension. *)
Theorem title_failure_is_not_fatal W name f fi fis child err :
  os_Open W (filepath.Join [f_root W; name]) = Ok f ->
  os.Stat f = Ok fi -> os.IsDir fi = true -> os.Readdir f = Ok fis ->
  no_index fis ->
  In child fis ->
  os.IsDir child && showDir W (entry name child) = false ->
  isDoc (os.Name child) = true ->
  parse W (Path (entry name child)) present.TitlesOnly = Err err ->
  exists evs d out,
    dirList W name =
      (evs ++ [dirList_Executed d out],
       (true, snd (dirListTemplate_Execute W d))) /\
    In (log_Errorln err) evs /\ Forall is_logged_error evs /\
    Title (entry name child) = "" /\
    (filepath.Ext (os.Name child) = ".slide" /\
       In (entry name child) (Slides d) \/
     filepath.Ext (os.Name child) = ".article" /\
       In (entry name child) (Articles d)).
Proof.
  intros HO HS HD HR Hno Hin Hd Hdoc Herr.
  exists (logs W name fis), (listing W name fis). eexists.
  split; [now apply (dirList_listed W name f fi fis)|].
  destruct (place_doc W name child Hd Hdoc) as (c & Hk & Hc & Hp).
  assert (Ht : titled W (entry name child) =
               ([log_Errorln err], entry name child)).
  { unfold titled. now rewrite Herr. }
  rewrite Ht in Hp. cbn [fst snd] in Hp.
  split; [|split; [apply logs_logged|split; [reflexivity|]]].
  { apply (In_logs W name fis child); trivial. rewrite Hp. now left. }
  assert (Hl : In (entry name child) (category_of c (listing W name fis))).
  { apply In_listing. exists child. now rewrite Hp. }
  unfold kind_of_name in Hk. rewrite Hdoc in Hk.
  destruct (isDoc_Ext _ Hdoc) as [E|E]; rewrite E in Hk;
    injection Hk as <-; auto.
Qed.

Lemma title_failure_is_not_fatal_witness :
  exists evs d out,
    dirList W1 "talks" =
      (evs ++ [dirList_Executed d out],
       (true, snd (dirListTemplate_Execute W1 d))) /\
    In (log_Errorln "talks/a.article: unexpected EOF") evs /\
    In (entry "talks" (demo.file "a.article")) (Articles d).
Proof.
  destruct (title_failure_is_not_fatal W1 "talks" _ _ _
              (demo.file "a.article") "talks/a.article: unexpected EOF"
              eq_refl eq_refl eq_refl eq_refl)
    as (evs & d & out & H1 & H2 & _ & _ & H3).
  - intros x [<-|[<-|[<-|[<-|[]]]]]; discriminate.
  - cbn. tauto.
  - reflexivity.
  - reflexivity.
  - reflexivity.
  - exists evs, d, out. split; [exact H1|]. split; [exact H2|].
    destruct H3 as [[H3 _]|[_ H3]]; [discriminate H3|exact H3].
Defined.

(** ** C9: a path that is not a directory *)

(** C9: for every path that can be opened and inspected and is not a
    directory, [dirList] returns isDir = false and a nil error, with no
    event at all: nothing is written to the response writer. *)
Theorem dirList_not_a_directory W name f fi :
  os_Open W (filepath.Join [f_root W; name]) = Ok f ->
  os.Stat f = Ok fi -> os.IsDir fi = false ->
  dirList W name = ([], (false, None)) /\
  written (fst (dirList W name)) = "".
Proof.
  intros HO HS HD. unfold dirList. rewrite HO, HS, HD. now split.
Qed.

Lemma dirList_not_a_directory_witness :
  dirList W1 "talks/z.pdf" = ([], (false, None)) /\
  written (fst (dirList W1 "talks/z.pdf")) = "".
Proof.
  exact (dirList_not_a_directory W1 "talks/z.pdf" _ _ eq_refl eq_refl eq_refl).
Defined.

(** ** C10: a subdirectory that cannot be enumerated *)



(** ** The shapes of a [dirList] run *)

Lemma dirList_cases W name :
  dirList W name = ([], (false, snd (snd (dirList W name)))) \/
  (exists pre page,
      dirList W name =
      (logs W name pre ++ fst (renderHTML W page),
       (true, snd (renderHTML W page)))) \/
  (exists fis,
      let d := listing W name fis in
      dirList W name =
      (logs W name fis ++
         [dirList_Executed d (fst (dirListTemplate_Execute W d))],
       (true, snd (dirListTemplate_Execute W d)))).
Proof.
  destruct (os_Open W (filepath.Join [f_root W; name])) as [f|err] eqn:HO;
    [|left; unfold dirList; now rewrite HO].
  destruct (os.Stat f) as [fi|err] eqn:HS;
    [|left; unfold dirList; now rewrite HO, HS].
  destruct (os.IsDir fi) eqn:HD;
    [|left; unfold dirList; now rewrite HO, HS, HD].
  destruct (os.Readdir f) as [fis|err] eqn:HR;
    [|left; unfold dirList; now rewrite HO, HS, HD, HR].
  right. destruct (index_or_not fis) as [Hidx|Hno].
  - left. destruct (dirList_index W name f fi fis HO HS HD HR Hidx)
      as (pre & _ & E). eauto.
  - right. exists fis. now apply (dirList_listed W name f fi fis).
Qed.

Lemma quiet_app evs evs' : quiet evs -> quiet evs' -> quiet (evs ++ evs').
Proof. intros H H' ev Hin. apply in_app_or in Hin as [?|?]; auto. Qed.

Lemma quiet_logged evs : Forall is_logged_error evs -> quiet evs.
Proof.
  intros H ev Hin. rewrite Forall_forall in H.
  now destruct (H ev Hin) as (err & ->).
Qed.

Lemma renderHTML_quiet W p : quiet (fst (renderHTML W p)).
Proof.
  intros ev Hin.
  now apply renderHTML_events in Hin as [(m & ->)|(x & y & ->)].
Qed.

Lemma dirList_quiet W name : quiet (fst (dirList W name)).
Proof.
  destruct (dirList_cases W name) as [E|[(pre & page & E)|(fis & E)]];
    rewrite E; cbn [fst].
  - intros ev [].
  - apply quiet_app; [apply quiet_logged, logs_logged|apply renderHTML_quiet].
  - apply quiet_app; [apply quiet_logged, logs_logged|].
    intros ev [<-|[]]. reflexivity.
Qed.

Lemma renderDoc_quiet W docFile : quiet (fst (renderDoc W docFile)).
Proof.
  unfold renderDoc. destruct (parse W docFile 0%Z) as [doc|err].
  - destruct (Doc_Render W doc _) as [out err]. cbn.
    intros ev [<-|[]]. reflexivity.
  - intros ev [].
Qed.

Lemma dirList_false_nil W name :
  fst (snd (dirList W name)) = false -> fst (dirList W name) = [].
Proof.
  destruct (dirList_cases W name) as [E|[(pre & page & E)|(fis & E)]];
    rewrite E; cbn; [reflexivity|discriminate..].
Qed.

(** ** What [dirList] reports as not handled *)

(** X1: when [dirList] returns isDir = false it has done nothing at all
    (no log, no write), and it returns an error exactly when opening,
    inspecting or enumerating the path failed, that error unchanged; with
    a nil error the path is an existing non-directory. *)
Theorem dirList_unhandled W name :
  fst (snd (dirList W name)) = false ->
  fst (dirList W name) = [] /\
  (forall err, snd (snd (dirList W name)) = Some err <-> probe_fails W name err) /\
  (snd (snd (dirList W name)) = None <->
   exists f fi, os_Open W (filepath.Join [f_root W; name]) = Ok f /\
                os.Stat f = Ok fi /\ os.IsDir fi = false).
Proof.
  intros Hfalse. split; [now apply dirList_false_nil|].
  revert Hfalse. unfold probe_fails.
  destruct (os_Open W (filepath.Join [f_root W; name])) as [f|e] eqn:HO.
  2:{ unfold dirList. rewrite HO. cbn. intros _. split.
      - intros err. split.
        + intros [= <-]. now left.
        + intros [[= <-]|(f & [=] & _)]. reflexivity.
      - split; [discriminate|]. intros (f & fi & [=] & _). }
  destruct (os.Stat f) as [fi|e] eqn:HS.
  2:{ unfold dirList. rewrite HO, HS. cbn. intros _. split.
      - intros err. split.
        + intros [= <-]. right. exists f. auto.
        + intros [[=]|(f' & [= <-] & [H|(fi & H & _)])]; congruence.
      - split; [discriminate|].
        intros (f' & fi & [= <-] & H & _). rewrite HS in H. discriminate H. }
  destruct (os.IsDir fi) eqn:HD.
  2:{ unfold dirList. rewrite HO, HS, HD. cbn. intros _. split.
      - intros err. split; [discriminate|].
        intros [[=]|(f' & [= <-] & [H|(fi' & H & H' & _)])]; congruence.
      - split; [|reflexivity]. intros _. now exists f, fi. }
  destruct (os.Readdir f) as [fis|e] eqn:HR.
  2:{ unfold dirList. rewrite HO, HS, HD, HR. cbn. intros _. split.
      - intros err. split.
        + intros [= <-]. right. exists f. split; [reflexivity|].
          right. now exists fi.
        + intros [[=]|(f' & [= <-] & [H|(fi' & _ & _ & H)])]; congruence.
      - split; [discriminate|].
        intros (f' & fi' & [= <-] & H & H'). rewrite HS in H.
        injection H as <-. congruence. }
  intros Hfalse. exfalso.
  destruct (index_or_not fis) as [Hidx|Hno].
  - destruct (dirList_index W name f fi fis HO HS HD HR Hidx) as (pre & _ & E).
    rewrite E in Hfalse. discriminate Hfalse.
  - rewrite (dirList_listed W name f fi fis HO HS HD HR Hno) in Hfalse.
    discriminate Hfalse.
Qed.

Lemma dirList_unhandled_witness :
  fst (dirList W1 "missing.txt") = [] /\
  probe_fails W1 "missing.txt"
    "open /srv/missing.txt: no such file or directory".
Proof.
  destruct (dirList_unhandled W1 "missing.txt" eq_refl) as (H1 & H2 & _).
  split; [exact H1|]. now apply H2.
Defined.

(** ** The shapes of a [dirHandler] run *)

Lemma fail500_fst err :
  fst (fail500 err) = [log_Errorln err; http_Error err 500].
Proof. reflexivity. Qed.

Lemma handler_shape W r :
  let t := fst (dirHandler W r) in
  (exists u, t = [http_Redirect u 301]) \/
  url.Path (URL r) = "/favicon.ico" /\ t = [http_Error "not found" 404] \/
  t = [FileServer_ServeHTTP (f_root W) r] \/
  quiet t \/
  (exists body e, quiet body /\ t = body ++ [log_Errorln e; http_Error e 500]).
Proof.
  cbn zeta. unfold dirHandler.
  destruct (HasPrefix _ _); [left; eexists; reflexivity|].
  destruct (String.eqb_spec (url.Path (URL r)) "/favicon.ico");
    [right; left; now split|].
  set (name := filepath.Join ["."; url.Path (URL r)]).
  do 2 right.
  destruct (isDoc name).
  - rewrite (surjective_M (renderDoc W name)), bind_pair.
    pose proof (renderDoc_quiet W name) as Hq.
    destruct (snd (renderDoc W name)) as [e|]; cbn [fst].
    + do 2 right. exists (fst (renderDoc W name)), e.
      split; [exact Hq|reflexivity].
    + right. left. cbn [fst ret]. now rewrite app_nil_r.
  - rewrite (surjective_M (dirList W name)), bind_pair.
    pose proof (dirList_quiet W name) as Hq.
    pose proof (dirList_false_nil W name) as Hnil.
    destruct (snd (dirList W name)) as [b [e|]]; cbn [fst snd] in *.
    + do 2 right. exists (fst (dirList W name)), e.
      destruct b; (split; [exact Hq|reflexivity]).
    + destruct b.
      * right. left. cbn [fst ret]. now rewrite app_nil_r.
      * rewrite (Hnil eq_refl). cbn [app].
        destruct (filepath.Ext name =? ".html")%string;
          [|left; reflexivity].
        right. rewrite (surjective_M (renderHTML W name)), bind_pair.
        pose proof (renderHTML_quiet W name) as Hq'.
        destruct (snd (renderHTML W name)) as [e|]; cbn [fst].
        -- right. exists (fst (renderHTML W name)), e.
           split; [exact Hq'|reflexivity].
        -- left. cbn [fst ret]. now rewrite app_nil_r.
Qed.


(** X3: every error status [dirHandler] sends is either the 404 of the
    favicon path, sent alone, or a 500 that ends the trace and is
    preceded by the log of the same error text. *)
Theorem error_answers W r msg code :
  In (http_Error msg code) (fst (dirHandler W r)) ->
  code = 404%Z /\ msg = "not found" /\
    url.Path (URL r) = "/favicon.ico" /\
    fst (dirHandler W r) = [http_Error "not found" 404] \/
  code = 500%Z /\
    exists body, quiet body /\
      fst (dirHandler W r) = body ++ [log_Errorln msg; http_Error msg 500].
Proof.
  intros Hin.
  destruct (handler_shape W r)
    as [(u & E)|[[Hp E]|[E|[Hq|(body & e & Hq & E)]]]]; cbn zeta in *.
  - rewrite E in Hin. destruct Hin as [[=]|[]].
  - left. rewrite E in Hin. destruct Hin as [[= <- <-]|[]]. auto.
  - rewrite E in Hin. destruct Hin as [[=]|[]].
  - specialize (Hq _ Hin). discriminate Hq.
  - right. rewrite E in Hin. apply in_app_or in Hin as [Hin|Hin].
    + specialize (Hq _ Hin). discriminate Hq.
    + destruct Hin as [[=]|[[= <- <-]|[]]]. eauto.
Qed.

Lemma error_answers_witness :
  exists body,
    quiet body /\
    fst (dirHandler W1 (demo.get "/missing.txt" "")) =
    body ++ [log_Errorln "open /srv/missing.txt: no such file or directory";
             http_Error "open /srv/missing.txt: no such file or directory" 500].
Proof.
  destruct (error_answers W1 (demo.get "/missing.txt" "")
              "open /srv/missing.txt: no such file or directory" 500)
    as [(H & _)|(_ & body & H)].
  - right. left. reflexivity.
  - discriminate H.
  - exists body. exact H.
Defined.

(** ** Requests for documents and for HTML pages *)

Lemma isDoc_template n :
  isDoc n = true ->
  exists tmpl, lookup (filepath.Ext n) contentTemplate = Some tmpl /\
               (tmpl = "slides.tmpl" \/ tmpl = "article.tmpl").
Proof.
  intros H. destruct (isDoc_Ext n H) as [-> | ->]; eexists; split;
    try reflexivity; auto.
Qed.

(** X4: a request whose resolved name has a document extension is
    answered by the Document Renderer alone, whatever the name is on
    disk: if the file cannot be opened or parsed, the answer is the
    logged 500 with that error and nothing is written; otherwise the
    document is rendered with the template registered for its extension,
    followed by the logged 500 when the rendering itself fails. *)
Theorem document_request W r :
  HasPrefix (url.Path (URL r)) "/minimega.git" = false ->
  url.Path (URL r) <> "/favicon.ico" ->
  isDoc (resolved r) = true ->
  (forall err,
      parse W (resolved r) 0%Z = Err err ->
      dirHandler W r = ([log_Errorln err; http_Error err 500], tt)) /\
  (forall doc,
      parse W (resolved r) 0%Z = Ok doc ->
      exists tmpl,
        lookup (filepath.Ext (resolved r)) contentTemplate = Some tmpl /\
        (tmpl = "slides.tmpl" \/ tmpl = "article.tmpl") /\
        fst (dirHandler W r) =
        Doc_Rendered doc (Some tmpl) (fst (Doc_Render W doc (Some tmpl))) ::
        match snd (Doc_Render W doc (Some tmpl)) with
        | Some e => [log_Errorln e; http_Error e 500]
        | None => []
        end).
Proof.
  intros Hleg Hfav Hdoc. apply String.eqb_neq in Hfav.
  unfold resolved in *. split.
  - intros err Hp. unfold dirHandler. rewrite Hleg, Hfav, Hdoc.
    unfold renderDoc. rewrite Hp. now rewrite bind_ret_l.
  - intros doc Hp. destruct (isDoc_template _ Hdoc) as (tmpl & Ht & Hor).
    exists tmpl. split; [exact Ht|]. split; [exact Hor|].
    unfold dirHandler. rewrite Hleg, Hfav, Hdoc.
    unfold renderDoc. rewrite Hp, Ht.
    destruct (Doc_Render W doc (Some tmpl)) as [out [e|]]; reflexivity.
Qed.

Lemma document_request_witness :
  fst (dirHandler W1 (demo.get "/talks/b.slide" "")) =
    [Doc_Rendered {| present.Title := "Bee"; present.Sections := ["body"] |}
       (Some "slides.tmpl") "<doc>Bee"] /\
  dirHandler W1 (demo.get "/talks/a.article" "") =
    ([log_Errorln "talks/a.article: unexpected EOF";
      http_Error "talks/a.article: unexpected EOF" 500], tt).
Proof.
  split.
  - destruct (proj2 (document_request W1 (demo.get "/talks/b.slide" "")
                       eq_refl ltac:(discriminate) eq_refl) _ eq_refl)
      as (tmpl & Ht & _ & H).
    injection Ht as <-. exact H.
  - exact (proj1 (document_request W1 (demo.get "/talks/a.article" "")
                    eq_refl ltac:(discriminate) eq_refl) _ eq_refl).
Defined.

(** X5: a request whose resolved name is an existing non-directory with
    the extension ".html" is answered by the HTML Page Renderer:
    the trace is that of [renderHTML] on the name, followed by the logged
    500 when it returns an error; the static responder is not used. *)
Theorem html_request W r f fi :
  HasPrefix (url.Path (URL r)) "/minimega.git" = false ->
  url.Path (URL r) <> "/favicon.ico" ->
  filepath.Ext (resolved r) = ".html" ->
  os_Open W (filepath.Join [f_root W; resolved r]) = Ok f ->
  os.Stat f = Ok fi -> os.IsDir fi = false ->
  fst (dirHandler W r) =
  fst (renderHTML W (resolved r)) ++
  match snd (renderHTML W (resolved r)) with
  | Some e => [log_Errorln e; http_Error e 500]
  | None => []
  end.
Proof.
  intros Hleg Hfav Hext HO HS HD. apply String.eqb_neq in Hfav.
  assert (Hdoc : isDoc (resolved r) = false).
  { unfold isDoc. now rewrite Hext. }
  unfold resolved in *. unfold dirHandler. rewrite Hleg, Hfav, Hdoc.
  unfold dirList. rewrite HO, HS, HD. cbn [negb]. rewrite bind_ret_l.
  rewrite Hext. cbn [String.eqb Ascii.eqb Bool.eqb].
  rewrite (surjective_M (renderHTML W _)), bind_pair. cbn [fst snd].
  now destruct (snd (renderHTML W _)).
Qed.

Lemma html_request_witness :
  fst (dirHandler W1 (demo.get "/site/index.html" "")) =
  [log_Info "renderHTML: site/index.html";
   html_Executed "/srv/site/index.html"
     "<html>layout.tmpl,/srv/site/index.html"].
Proof.
  exact (html_request W1 (demo.get "/site/index.html" "") _ _
           eq_refl ltac:(discriminate) eq_refl eq_refl eq_refl eq_refl).
Defined.

(** ** The resolved name stays below the root *)










(** ** What a listing holds *)

Lemma place_Some W name fi c e :
  snd (place W name fi) = Some (c, e) ->
  skipped name fi = false /\
  match c with
  | inDirs =>
      os.IsDir fi = true /\ showDir W (entry name fi) = true /\
      e = entry name fi
  | inSlides =>
      filepath.Ext (os.Name fi) = ".slide" /\
      e = snd (titled W (entry name fi))
  | inArticles =>
      filepath.Ext (os.Name fi) = ".article" /\
      e = snd (titled W (entry name fi))
  | inOther =>
      isDoc (os.Name fi) = false /\ showFile (os.Name fi) = true /\
      e = entry name fi
  end.
Proof.
  intros Hp. destruct (skipped name fi) eqn:Hs.
  { rewrite place_skipped in Hp by assumption. discriminate Hp. }
  split; [reflexivity|].
  destruct (os.IsDir fi && showDir W (entry name fi)) eqn:Hd.
  { rewrite place_dir in Hp by assumption. cbn in Hp.
    injection Hp as <- <-.
    apply andb_true_iff in Hd as [? ?]. auto. }
  destruct (isDoc (os.Name fi)) eqn:Hdoc.
  - destruct (place_doc W name fi Hd Hdoc) as (c' & Hk & _ & E).
    rewrite E in Hp. cbn in Hp. injection Hp as <- <-.
    unfold kind_of_name in Hk. rewrite Hdoc in Hk.
    destruct (isDoc_Ext _ Hdoc) as [E'|E']; rewrite E' in Hk;
      injection Hk as <-; auto.
  - rewrite place_plain in Hp by assumption. cbn in Hp.
    unfold kind_of_name in Hp. rewrite Hdoc in Hp.
    destruct (showFile (os.Name fi)) eqn:Hsf; cbn in Hp;
      [|discriminate Hp].
    injection Hp as <- <-. auto.
Qed.

Lemma titled_Path W e : Path (snd (titled W e)) = Path e.
Proof.
  destruct (titled_spec W e) as [(err & _ & ->)|(p & _ & ->)]; reflexivity.
Qed.

Lemma titled_Title W e :
  Title e = "" ->
  Title (snd (titled W e)) =
  match parse W (Path e) present.TitlesOnly with
  | Ok p => present.Title p
  | Err _ => ""
  end.
Proof.
  intros H.
  destruct (titled_spec W e) as [(err & -> & ->)|(p & -> & ->)];
    [exact H|reflexivity].
Qed.

Lemma showFile_plain n :
  isDoc n = false -> showFile n = true ->
  In (filepath.Ext n) [".pdf"; ".html"; ".go"].
Proof.
  unfold showFile. intros ->.
  destruct (String.eqb_spec (filepath.Ext n) ".pdf") as [->|_]; [cbn; auto|].
  destruct (String.eqb_spec (filepath.Ext n) ".html") as [->|_]; [cbn; auto|].
  destruct (String.eqb_spec (filepath.Ext n) ".go") as [->|_]; [cbn; auto|].
  discriminate.
Qed.

Lemma listing_DPath W name fis :
  DPath (listing W name fis) = if (name =? ".")%string then "" else name.
Proof.
  unfold listing.
  destruct (fold_add (placed W name fis) (empty_listing name)) as (H & _).
  cbn [finish DPath]. now rewrite H.
Qed.

(** X7: the data handed to the listing template is well formed.  Its
    display path is the directory's name, empty for the root ".".  Every
    entry of every category comes from an enumerated child, bears the
    child's name, and has for Path the cleaned join of the directory's
    name and its own.  Entries of Slides have the extension ".slide" and
    those of Articles ".article", in Name and in Path alike, and their
    Title is the one parsed from their Path, or empty when that parse
    fails; entries of Other have one of the extensions ".pdf", ".html",
    ".go" and an empty Title; entries of Dirs are directories that pass
    [showDir] and have an empty Title. *)
Theorem listing_well_formed W name f fi fis d out :
  os_Open W (filepath.Join [f_root W; name]) = Ok f ->
  os.Stat f = Ok fi -> os.IsDir fi = true -> os.Readdir f = Ok fis ->
  In (dirList_Executed d out) (fst (dirList W name)) ->
  DPath d = (if (name =? ".")%string then "" else name) /\
  forall c e,
    In e (category_of c d) ->
    exists child,
      In child fis /\ Name e = os.Name child /\
      Path e = filepath.Join [name; Name e] /\
      match c with
      | inDirs =>
          os.IsDir child = true /\ showDir W e = true /\ Title e = ""
      | inSlides =>
          filepath.Ext (Name e) = ".slide" /\
          filepath.Ext (Path e) = ".slide" /\
          Title e = match parse W (Path e) present.TitlesOnly with
                    | Ok p => present.Title p
                    | Err _ => ""
                    end
      | inArticles =>
          filepath.Ext (Name e) = ".article" /\
          filepath.Ext (Path e) = ".article" /\
          Title e = match parse W (Path e) present.TitlesOnly with
                    | Ok p => present.Title p
                    | Err _ => ""
                    end
      | inOther =>
          In (filepath.Ext (Name e)) [".pdf"; ".html"; ".go"] /\ Title e = ""
      end.
Proof.
  intros HO HS HD HR Hin.
  rewrite (executed_is_listing W name f fi fis d out HO HS HD HR Hin).
  split; [apply listing_DPath|].
  intros c e He. apply In_listing in He as (child & Hc & Hp).
  exists child. split; [exact Hc|].
  apply place_Some in Hp as (_ & Hp).
  destruct c.
  - destruct Hp as (H1 & H2 & ->). cbn [entry Name Path Title]. auto.
  - destruct Hp as (H1 & ->).
    rewrite titled_Name, titled_Path, titled_Title by reflexivity.
    cbn [entry Name Path filepath.ToSlash Title].
    split; [reflexivity|]. split; [reflexivity|]. split; [exact H1|].
    split; [|reflexivity]. unfold filepath.ToSlash.
    rewrite Ext_Join; rewrite ?H1; trivial; discriminate.
  - destruct Hp as (H1 & ->).
    rewrite titled_Name, titled_Path, titled_Title by reflexivity.
    cbn [entry Name Path filepath.ToSlash Title].
    split; [reflexivity|]. split; [reflexivity|]. split; [exact H1|].
    split; [|reflexivity]. unfold filepath.ToSlash.
    rewrite Ext_Join; rewrite ?H1; trivial; discriminate.
  - destruct Hp as (H1 & H2 & ->). cbn [entry Name Path Title].
    repeat split; trivial. now apply showFile_plain.
Qed.

Lemma listing_well_formed_witness :
  exists d out,
    In (dirList_Executed d out) (fst (dirList W1 "talks")) /\
    DPath d = "talks" /\
    forall e, In e (Slides d) ->
              filepath.Ext (Path e) = ".slide" /\
              Title e = match parse W1 (Path e) present.TitlesOnly with
                        | Ok p => present.Title p
                        | Err _ => ""
                        end.
Proof.
  eexists _, _. split; [vm_compute; right; left; reflexivity|].
  match goal with
  | |- DPath ?d = _ /\ _ =>
      destruct (listing_well_formed W1 "talks" _ _ _ d "<dir>talks"
                  eq_refl eq_refl eq_refl eq_refl) as (H1 & H2)
  end.
  { vm_compute. right. left. reflexivity. }
  split; [exact H1|]. intros e He.
  destruct (H2 inSlides e He) as (_ & _ & _ & _ & _ & H3 & H4).
  split; assumption.
Defined.

(** X8: the listing of the serving root "." never shows an entry named
    "pkg", in any category, whatever kind of child bears that name. *)
Theorem root_listing_hides_pkg W f fi fis d out :
  os_Open W (filepath.Join [f_root W; "."]) = Ok f ->
  os.Stat f = Ok fi -> os.IsDir fi = true -> os.Readdir f = Ok fis ->
  In (dirList_Executed d out) (fst (dirList W ".")) ->
  forall c e, In e (category_of c d) -> Name e <> "pkg".
Proof.
  intros HO HS HD HR Hin c e He.
  rewrite (executed_is_listing W "." f fi fis d out HO HS HD HR Hin) in He.
  apply In_listing in He as (child & _ & Hp).
  pose proof (place_Some W "." child c e Hp) as (Hs & Hc).
  assert (HN : Name e = os.Name child).
  { destruct c; decompose [and] Hc; subst e;
      rewrite ?titled_Name; reflexivity. }
  rewrite HN. intros E. unfold skipped in Hs. rewrite E in Hs.
  discriminate Hs.
Qed.

Lemma root_listing_hides_pkg_witness :
  exists d out,
    In (dirList_Executed d out) (fst (dirList W1 ".")) /\
    forall c e, In e (category_of c d) -> Name e <> "pkg".
Proof.
  eexists _, _. split; [vm_compute; left; reflexivity|].
  apply (root_listing_hides_pkg W1 _ _ _ _ "<dir>"
           eq_refl eq_refl eq_refl eq_refl).
  vm_compute. left. reflexivity.
Defined.

(** ** No child is listed twice *)

Lemma length_sort_Sort s : length (sort_Sort s) = length s.
Proof. apply Permutation_length, sort_Sort_perm. Qed.

Lemma entries_cons p ps : entries (p :: ps) = entries [p] ++ entries ps.
Proof. unfold entries. cbn [flat_map]. now rewrite app_nil_r. Qed.

(** The four categories together hold the placed entries, each once. *)
Lemma categories_partition ps :
  Permutation
    (select inDirs ps ++ select inSlides ps ++
     select inArticles ps ++ select inOther ps)
    (entries ps).
Proof.
  induction ps as [|p ps IH]; [reflexivity|].
  rewrite (select_cons inDirs), (select_cons inSlides),
    (select_cons inArticles), (select_cons inOther), entries_cons.
  destruct p as [[[] e]|]; cbn [select entries flat_map category_eqb app].
  - now constructor.
  - rewrite <- Permutation_middle. now constructor.
  - rewrite app_assoc, <- Permutation_middle, <- app_assoc. now constructor.
  - rewrite !app_assoc, <- Permutation_middle, <- !app_assoc.
    now constructor.
  - exact IH.
Qed.

Lemma place_Name W name fi c e :
  snd (place W name fi) = Some (c, e) -> Name e = os.Name fi.
Proof.
  intros Hp. apply place_Some in Hp as (_ & Hc).
  destruct c; decompose [and] Hc; subst e; rewrite ?titled_Name; reflexivity.
Qed.

Lemma entries_names W name fis n :
  In n (map Name (entries (placed W name fis))) -> In n (map os.Name fis).
Proof.
  induction fis as [|fi rest IH]; [intros []|].
  change (placed W name (fi :: rest))
    with (snd (place W name fi) :: placed W name rest).
  rewrite entries_cons, map_app. intros H.
  apply in_app_or in H as [H|H]; [left|right; now apply IH].
  destruct (snd (place W name fi)) as [[c e]|] eqn:Hp; [|destruct H].
  destruct H as [<-|[]]. symmetry. now apply (place_Name W name fi c e).
Qed.

Lemma entries_length W name fis :
  length (entries (placed W name fis)) <= length fis.
Proof.
  induction fis as [|fi rest IH]; [reflexivity|].
  change (placed W name (fi :: rest))
    with (snd (place W name fi) :: placed W name rest).
  rewrite entries_cons, length_app.
  destruct (snd (place W name fi)) as [[c e]|]; cbn; lia.
Qed.

Lemma entries_NoDup W name fis :
  NoDup (map os.Name fis) ->
  NoDup (map Name (entries (placed W name fis))).
Proof.
  induction fis as [|fi rest IH]; intros Hnd; [constructor|].
  inversion Hnd as [|? ? Hni Hnd']; subst.
  change (placed W name (fi :: rest))
    with (snd (place W name fi) :: placed W name rest).
  rewrite entries_cons, map_app.
  destruct (snd (place W name fi)) as [[c e]|] eqn:Hp; [|now apply IH].
  cbn. constructor; [|now apply IH].
  intros H. apply entries_names in H.
  now rewrite (place_Name W name fi c e Hp) in H.
Qed.

(** X9: a listing shows every child at most once: the four categories
    together hold no more entries than the directory has children, and
    when the children bear distinct names, so do the entries of the four
    categories taken together. *)
Theorem listing_shows_child_once W name f fi fis d out :
  os_Open W (filepath.Join [f_root W; name]) = Ok f ->
  os.Stat f = Ok fi -> os.IsDir fi = true -> os.Readdir f = Ok fis ->
  In (dirList_Executed d out) (fst (dirList W name)) ->
  length (Dirs d) + length (Slides d) + length (Articles d) +
    length (Other d) <= length fis /\
  (NoDup (map os.Name fis) ->
   NoDup (map Name (Dirs d ++ Slides d ++ Articles d ++ Other d))).
Proof.
  intros HO HS HD HR Hin.
  rewrite (executed_is_listing W name f fi fis d out HO HS HD HR Hin).
  destruct (listing_spec W name fis) as (-> & -> & -> & ->).
  pose proof (categories_partition (placed W name fis)) as HP.
  split.
  - rewrite !length_sort_Sort.
    pose proof (Permutation_length HP) as HL.
    rewrite !length_app in HL.
    pose proof (entries_length W name fis). lia.
  - intros Hnd. apply entries_NoDup with (W := W) (name := name) in Hnd.
    eapply Permutation_NoDup; [|exact Hnd].
    apply Permutation_map. apply Permutation_sym.
    rewrite <- HP.
    repeat apply Permutation_app; apply sort_Sort_perm.
Qed.

Lemma listing_shows_child_once_witness :
  exists d out,
    In (dirList_Executed d out) (fst (dirList W1 "docs")) /\
    length (Dirs d) + length (Slides d) + length (Articles d) +
      length (Other d) <= 4 /\
    NoDup (map Name (Dirs d ++ Slides d ++ Articles d ++ Other d)).
Proof.
  eexists _, _. split; [vm_compute; left; reflexivity|].
  match goal with
  | |- length (Dirs ?d) + _ + _ + _ <= _ /\ _ =>
      destruct (listing_shows_child_once W1 "docs" _ _ _ d "<dir>docs"
                  eq_refl eq_refl eq_refl eq_refl) as (H1 & H2)
  end.
  { vm_compute. left. reflexivity. }
  split; [exact H1|]. apply H2.
  repeat (constructor; [cbn; intuition discriminate|]). constructor.
Defined.

(** ** The order of entries *)

Lemma ascii_compare_refl a : Ascii.compare a a = Eq.
Proof. unfold Ascii.compare. apply N.compare_refl. Qed.

Lemma ascii_compare_lt_trans a b c :
  Ascii.compare a b = Lt -> Ascii.compare b c = Lt -> Ascii.compare a c = Lt.
Proof.
  unfold Ascii.compare. rewrite !N.compare_lt_iff. apply N.lt_trans.
Qed.

Lemma string_compare_refl s : String.compare s s = Eq.
Proof.
  induction s as [|a s IH]; [reflexivity|]. cbn.
  now rewrite ascii_compare_refl.
Qed.

Lemma string_compare_lt_trans a : forall b c,
  String.compare a b = Lt -> String.compare b c = Lt ->
  String.compare a c = Lt.
Proof.
  induction a as [|x a IH]; intros [|y b] [|z c]; cbn; try easy.
  destruct (Ascii.compare x y) eqn:Exy; try discriminate;
    destruct (Ascii.compare y z) eqn:Eyz; try discriminate.
  - apply Ascii.compare_eq_iff in Exy, Eyz. subst.
    rewrite ascii_compare_refl. apply IH.
  - apply Ascii.compare_eq_iff in Exy. subst. now rewrite Eyz.
  - apply Ascii.compare_eq_iff in Eyz. subst. now rewrite Exy.
  - now rewrite (ascii_compare_lt_trans x y z).
Qed.

Lemma string_leb_cases a b :
  (a <=? b)%string = true <-> String.compare a b = Lt \/ a = b.
Proof.
  unfold String.leb. split.
  - destruct (String.compare a b) eqn:E; try discriminate; auto.
    right. now apply String.compare_eq_iff.
  - intros [-> | ->]; [reflexivity|]. now rewrite string_compare_refl.
Qed.

Lemma string_leb_trans a b c :
  (a <=? b)%string = true -> (b <=? c)%string = true ->
  (a <=? c)%string = true.
Proof.
  rewrite !string_leb_cases. intros [H1| ->] [H2| ->]; auto.
  left. now apply (string_compare_lt_trans a b c).
Qed.

Lemma by_Name_refl a : by_Name a a.
Proof. apply string_leb_cases. now right. Qed.

Lemma by_Name_trans a b c : by_Name a b -> by_Name b c -> by_Name a c.
Proof. apply string_leb_trans. Qed.

(** X10: [Less] is a strict total order on names, as [sort.Sort] needs:
    no entry is less than itself, two entries are never less than each
    other, less composes, and of two entries with different names one is
    less than the other. *)
Theorem Less_strict_order :
  (forall a, Less a a = false) /\
  (forall a b, Less a b = true -> Less b a = false) /\
  (forall a b c, Less a b = true -> Less b c = true -> Less a c = true) /\
  (forall a b, Name a <> Name b -> Less a b = true \/ Less b a = true).
Proof.
  unfold Less, String.ltb. repeat split.
  - intros a. now rewrite string_compare_refl.
  - intros a b. rewrite (String.compare_antisym (Name a) (Name b)).
    now destruct (String.compare (Name b) (Name a)).
  - intros a b c H1 H2.
    destruct (String.compare (Name a) (Name b)) eqn:E1; try discriminate.
    destruct (String.compare (Name b) (Name c)) eqn:E2; try discriminate.
    now rewrite (string_compare_lt_trans _ _ _ E1 E2).
  - intros a b Hne. rewrite (String.compare_antisym (Name a) (Name b)).
    destruct (String.compare (Name b) (Name a)) eqn:E; cbn; auto.
    apply String.compare_eq_iff in E. now symmetry in E.
Qed.

(** Two sorted slices with the same entries are equal, when entries
    with the same name are the same entry. *)
Lemma sorted_unique l1 : forall l2,
  Sorted by_Name l1 -> Sorted by_Name l2 -> Permutation l1 l2 ->
  (forall x y, In x l1 -> In y l1 -> Name x = Name y -> x = y) ->
  l1 = l2.
Proof.
  induction l1 as [|a l1 IH]; intros l2 S1 S2 HP Hinj.
  { now apply Permutation_nil in HP. }
  destruct l2 as [|b l2].
  { apply Permutation_sym, Permutation_nil in HP. discriminate HP. }
  assert (T : Relations_1.Transitive by_Name)
    by (intros x y z; apply by_Name_trans).
  pose proof (Sorted_StronglySorted T S1) as SS1.
  pose proof (Sorted_StronglySorted T S2) as SS2.
  inversion SS1 as [|? ? _ F1]; subst. inversion SS2 as [|? ? _ F2]; subst.
  rewrite Forall_forall in F1, F2.
  assert (Hab : by_Name a b).
  { assert (Hb : In b (a :: l1))
      by (apply (Permutation_in _ (Permutation_sym HP)); now left).
    destruct Hb as [->|Hb]; [apply by_Name_refl|now apply F1]. }
  assert (Hba : by_Name b a).
  { assert (Ha : In a (b :: l2)) by (apply (Permutation_in _ HP); now left).
    destruct Ha as [->|Ha]; [apply by_Name_refl|now apply F2]. }
  assert (E : a = b).
  { apply Hinj; [now left| |now apply String.leb_antisym].
    apply (Permutation_in _ (Permutation_sym HP)). now left. }
  subst b. f_equal. apply IH.
  - now inversion S1.
  - now inversion S2.
  - now apply Permutation_cons_inv in HP.
  - intros x y Hx Hy. apply Hinj; now right.
Qed.

Lemma entry_by_name name fi fi' :
  os.Name fi = os.Name fi' -> entry name fi = entry name fi'.
Proof. unfold entry. now intros ->. Qed.

(** Within one category, the name decides the entry. *)
Lemma select_injective W name fis c x y :
  In x (select c (placed W name fis)) ->
  In y (select c (placed W name fis)) ->
  Name x = Name y -> x = y.
Proof.
  rewrite !In_select, !In_placed.
  intros (fx & _ & Hx) (fy & _ & Hy) E.
  rewrite (place_Name W name fx c x Hx), (place_Name W name fy c y Hy) in E.
  apply (entry_by_name name) in E.
  apply place_Some in Hx as (_ & Hx). apply place_Some in Hy as (_ & Hy).
  destruct c; decompose [and] Hx; decompose [and] Hy; subst; now rewrite E.
Qed.

Lemma sort_select_perm W name fis fis' c :
  Permutation fis fis' ->
  sort_Sort (select c (placed W name fis)) =
  sort_Sort (select c (placed W name fis')).
Proof.
  intros HP. apply sorted_unique.
  - apply sort_Sort_sorted.
  - apply sort_Sort_sorted.
  - now rewrite !sort_Sort_perm; apply placed_perm.
  - intros x y Hx Hy E.
    apply (select_injective W name fis c x y); trivial;
      now apply In_sort_Sort.
Qed.

Lemma listing_perm W name fis fis' :
  Permutation fis fis' -> listing W name fis = listing W name fis'.
Proof.
  intros HP.
  pose proof (listing_DPath W name fis) as D1.
  pose proof (listing_DPath W name fis') as D2.
  destruct (listing_spec W name fis) as (A1 & A2 & A3 & A4).
  destruct (listing_spec W name fis') as (B1 & B2 & B3 & B4).
  rewrite (sort_select_perm W name fis fis' inDirs HP) in A1.
  rewrite (sort_select_perm W name fis fis' inSlides HP) in A2.
  rewrite (sort_select_perm W name fis fis' inArticles HP) in A3.
  rewrite (sort_select_perm W name fis fis' inOther HP) in A4.
  destruct (listing W name fis), (listing W name fis'); cbn in *. congruence.
Qed.

(** X11: the listing does not depend on the order in which the file
    system enumerates the children: for two enumerations of the same
    children, none of them the index page, the loop followed by the four
    sorts yields the same data. *)
Theorem listing_order_independent W name fis fis' :
  Permutation fis fis' -> no_index fis ->
  exists d d',
    snd (scan W name fis (empty_listing name)) = Listed d /\
    snd (scan W name fis' (empty_listing name)) = Listed d' /\
    finish d = finish d'.
Proof.
  intros HP Hno.
  assert (Hno' : no_index fis').
  { intros x Hx. apply Hno. now apply (Permutation_in _ (Permutation_sym HP)). }
  rewrite !scan_listed by assumption. cbn [snd].
  eexists _, _. split; [reflexivity|]. split; [reflexivity|].
  now apply (listing_perm W name fis fis').
Qed.

Lemma listing_order_independent_witness :
  exists d d',
    snd (scan W1 "talks" four_children (empty_listing "talks")) = Listed d /\
    snd (scan W1 "talks" (rev four_children) (empty_listing "talks")) =
      Listed d' /\
    finish d = finish d'.
Proof.
  apply listing_order_independent.
  - apply Permutation_rev.
  - intros x [<-|[<-|[<-|[<-|[]]]]]; discriminate.
Defined.

(** ** What [showFile] lets through *)

(** X12: [showFile] holds exactly for the names whose extension is one
    of ".pdf", ".html", ".go", ".slide", ".article"; [isDoc] exactly for
    the last two; both depend on the last element of the path alone, so
    a directory part with dots in it changes nothing. *)
Theorem showFile_extensions n :
  (showFile n = true <-> In (filepath.Ext n) shown_extensions) /\
  (isDoc n = true <->
   filepath.Ext n = ".slide" \/ filepath.Ext n = ".article") /\
  showFile n = showFile (last_elem n) /\ isDoc n = isDoc (last_elem n).
Proof.
  assert (Hdoc : isDoc n = true <->
                 filepath.Ext n = ".slide" \/ filepath.Ext n = ".article").
  { split; [apply isDoc_Ext|]. unfold isDoc. now intros [-> | ->]. }
  split; [|split; [exact Hdoc|]].
  - unfold showFile, shown_extensions.
    destruct (String.eqb_spec (filepath.Ext n) ".pdf") as [->|N1];
      [cbn; tauto|].
    destruct (String.eqb_spec (filepath.Ext n) ".html") as [->|N2];
      [cbn; tauto|].
    destruct (String.eqb_spec (filepath.Ext n) ".go") as [->|N3];
      [cbn; tauto|].
    rewrite Hdoc. cbn. intuition congruence.
  - unfold showFile, isDoc. now rewrite <- (Ext_last_elem n).
Qed.

(** ** Cleaning a cleaned path *)


















(** ** The template registry *)

Lemma content_loop_ok L base actionTmpl order ct ct' :
  content_loop L base actionTmpl order ct = (ct', None) ->
  forall k, map_has k ct' = map_has k ct || existsb (fun e => (fst e =? k)%string) order.
Proof.
  revert ct. induction order as [|[ext file] rest IH]; intros ct H k.
  - cbn in H. injection H as <-. cbn. now rewrite orb_false_r.
  - cbn [content_loop] in H.
    destruct (tmpl_ParseFiles L _ _) as [t|err]; [|discriminate H].
    rewrite (IH _ H k). cbn [existsb fst].
    rewrite orb_assoc. f_equal.
    clear. induction ct as [|[k' v'] ct IHc]; cbn.
    + now rewrite orb_false_r.
    + destruct (String.eqb_spec k' ext) as [->|N]; cbn.
      * destruct (ext =? k)%string; cbn; [reflexivity|].
        now rewrite orb_false_r.
      * rewrite IHc. now rewrite orb_assoc.
Qed.

(** X14: when [initTemplates] returns a nil error, in whatever order the
    runtime ranged over the map literal, the registry is complete: the
    layout and the listing template are set, and the registered document
    kinds are exactly ".slide" and ".article", so that a path has a
    content template if and only if [isDoc] says so. *)
Theorem initTemplates_registers L base order g g' :
  Permutation order contentTemplate ->
  initTemplates L base order g = (g', None) ->
  reg_layoutTemplate g' <> None /\
  reg_dirListTemplate g' <> None /\
  forall path,
    map_has (filepath.Ext path) (reg_contentTemplate g') = isDoc path.
Proof.
  intros HP H. unfold initTemplates in H.
  destruct (content_loop L base _ order []) as [ct [err|]] eqn:Hloop;
    [discriminate H|].
  destruct (template_ParseFiles L [filepath.Join [base; "layout.tmpl"]])
    as [layout|err]; [|discriminate H].
  destruct (template_ParseFiles L [filepath.Join [base; "dir.tmpl"]])
    as [dir|err]; [|discriminate H].
  destruct (tmpl_Clone L layout) as [tmpl|err]; [|discriminate H].
  destruct (tmpl_AddParseTree L dir "layout.tmpl" tmpl) as [added|err];
    [|discriminate H].
  injection H as <-. cbn.
  split; [discriminate|]. split; [discriminate|].
  intros path. rewrite (content_loop_ok _ _ _ _ _ _ Hloop). cbn [map_has orb].
  unfold isDoc, contentTemplate in *.
  apply Permutation_sym, Permutation_length_2_inv in HP as [-> | ->];
    cbn [existsb fst lookup];
    destruct (".slide" =? filepath.Ext path)%string;
    destruct (".article" =? filepath.Ext path)%string; reflexivity.
Qed.

Lemma initTemplates_registers_witness :
  let g := fst (initTemplates demo_templates "misc/web"
                  [(".article", "article.tmpl"); (".slide", "slides.tmpl")]
                  (unset demo_templates)) in
  reg_layoutTemplate g <> None /\
  map_has (filepath.Ext "talks/a.slide") (reg_contentTemplate g) = true /\
  map_has (filepath.Ext "talks/z.pdf") (reg_contentTemplate g) = false.
Proof.
  cbn zeta.
  destruct (initTemplates_registers demo_templates "misc/web"
              [(".article", "article.tmpl"); (".slide", "slides.tmpl")]
              (unset demo_templates) _ (perm_swap _ _ _) eq_refl)
    as (H1 & _ & H2).
  split; [exact H1|].
  split; [exact (H2 "talks/a.slide")|exact (H2 "talks/z.pdf")].
Defined.

(** ** The methods of [dirEntrySlice] *)

Lemma index_in_range s i :
  index s i <> None <-> (0 <= i < Len s)%Z.
Proof.
  unfold index, Len. destruct (Z.ltb_spec i 0) as [Hn|Hp].
  - split; [now intros []|lia].
  - rewrite nth_error_Some. lia.
Qed.

Lemma store_length s n v : length (store s n v) = length s.
Proof.
  revert n. induction s as [|x r IH]; intros [|n]; cbn; auto.
Qed.

Lemma store_same s n v x :
  nth_error s n = Some x -> nth_error (store s n v) n = Some v.
Proof.
  revert n. induction s as [|y r IH]; intros [|n]; cbn; try discriminate; auto.
Qed.

Lemma store_other s n m v :
  n <> m -> nth_error (store s n v) m = nth_error s m.
Proof.
  revert n m. induction s as [|y r IH]; intros [|n] [|m] H; cbn; auto;
    try contradiction.
Qed.

Lemma store_perm s n v x :
  nth_error s n = Some x -> Permutation (x :: store s n v) (v :: s).
Proof.
  revert n. induction s as [|y r IH]; intros [|n] H; cbn in *;
    try discriminate.
  - injection H as ->. apply perm_swap.
  - apply Permutation_trans with (y :: x :: store r n v); [apply perm_swap|].
    apply Permutation_trans with (y :: v :: r); [|apply perm_swap].
    apply perm_skip, IH, H.
Qed.

(** X15: [Swap] panics exactly when an index is out of range (negative
    or not below [Len]); otherwise the slice it leaves has the same
    [Len] and the same entries, with those at [i] and [j] exchanged and
    every other position untouched. *)
Theorem Swap_exchanges s i j :
  (Swap s i j = None <-> ~ ((0 <= i < Len s)%Z /\ (0 <= j < Len s)%Z)) /\
  forall s',
    Swap s i j = Some s' ->
    Len s' = Len s /\ Permutation s' s /\
    index s' i = index s j /\ index s' j = index s i /\
    forall k, k <> i -> k <> j -> index s' k = index s k.
Proof.
  split.
  - pose proof (index_in_range s i) as Ri0.
    pose proof (index_in_range s j) as Rj0. unfold Swap.
    destruct (index s j), (index s i); split; intros H;
      try discriminate H; try reflexivity;
      try (exfalso; apply H; split; [apply Ri0|apply Rj0]; discriminate);
      intros [A B]; apply Ri0 in A; apply Rj0 in B; congruence.
  - intros s'. unfold Swap.
    destruct (index s j) as [sj|] eqn:Hj; [|discriminate].
    destruct (index s i) as [si|] eqn:Hi; [|discriminate].
    intros [= <-].
    assert (Ri : (0 <= i)%Z /\ nth_error s (Z.to_nat i) = Some si).
    { unfold index in Hi. destruct (Z.ltb_spec i 0); [discriminate|auto]. }
    assert (Rj : (0 <= j)%Z /\ nth_error s (Z.to_nat j) = Some sj).
    { unfold index in Hj. destruct (Z.ltb_spec j 0); [discriminate|auto]. }
    destruct Ri as [Pi Ni], Rj as [Pj Nj].
    set (a := Z.to_nat i) in *. set (b := Z.to_nat j) in *.
    assert (Nb : nth_error (store s a sj) b = Some sj).
    { destruct (Nat.eq_dec a b) as [E|N].
      - rewrite <- E. now apply (store_same s a sj si).
      - now rewrite store_other. }
    assert (Ii : forall t, index t i = nth_error t a).
    { intros t. unfold index. now destruct (Z.ltb_spec i 0); [lia|]. }
    assert (Ij : forall t, index t j = nth_error t b).
    { intros t. unfold index. now destruct (Z.ltb_spec j 0); [lia|]. }
    split; [unfold Len; now rewrite !store_length|].
    split.
    { apply (Permutation_cons_inv (a := sj)).
      exact (Permutation_trans (store_perm _ b si sj Nb)
                               (store_perm s a sj si Ni)). }
    split.
    { rewrite Ii. destruct (Nat.eq_dec a b) as [E|N].
      - rewrite <- E in *. rewrite (store_same _ a si sj Nb). congruence.
      - rewrite store_other by auto. now apply (store_same s a sj si). }
    split.
    { rewrite Ij. now apply (store_same _ b si sj). }
    intros k Hki Hkj. unfold index. destruct (Z.ltb_spec k 0); [reflexivity|].
    rewrite !store_other; trivial; unfold a, b; lia.
Qed.

Lemma Swap_exchanges_witness :
  let a := {| Name := "a.pdf"; Path := "a.pdf"; Title := "" |} in
  let b := {| Name := "b.pdf"; Path := "b.pdf"; Title := "" |} in
  Len [b; a] = Len [a; b] /\ Permutation [b; a] [a; b] /\
  Swap [a; b] 0 2 = None.
Proof.
  cbn zeta.
  destruct (Swap_exchanges
              [{| Name := "a.pdf"; Path := "a.pdf"; Title := "" |};
               {| Name := "b.pdf"; Path := "b.pdf"; Title := "" |}] 0 1)
    as (_ & H).
  destruct (H _ eq_refl) as (H1 & H2 & _).
  split; [exact H1|]. split; [exact H2|].
  apply (proj1 (Swap_exchanges _ 0 2)). intros [_ H3]. cbn in H3. lia.
Defined.
